(** * Ward resolution and notification dispatch (notifications.py)

    A shallow embedding of [WardNotificationSystem]: the point-in-polygon
    geofence ([point_in_polygon], [find_ward_for_location]), the e-mail
    dispatcher ([send_email_notification]) and the orchestrator
    ([process_new_issue]), together with the two sample wards of
    [setup_ward_collection] and the sample issue of [test_with_sample_issue].

    Modelling conventions.
    - Firestore documents are Python dicts: finite maps from field names to
      dynamically typed values.  A missing key raises [KeyError], exactly as
      a subscript on a dict does.
    - Python floats are modelled by the rational number they denote (no NaN,
      no infinities); comparisons are exact, as are the robust predicates of
      the geometry engine behind shapely.
    - Effects are threaded through a state-and-exception monad over a
      [world] that holds the two Firestore collections, the server clock and
      the trace of externally visible events (document updates and SMTP
      sessions).  An exception keeps the writes made before it was raised.
    - The store itself is taken to be reliable: reading a document and
      updating an existing one do not fail (loss of connectivity and
      permission faults are outside the model).
    - The SMTP server and the parsing of numeric strings by [float()] are
      the environment: they are parameters of the development. *)

From Stdlib Require Import QArith Lqa ZArith.
From stdpp Require Import gmap strings list fin_maps sorting.

Set Warnings "-register-all".

(** ** Python values and exceptions *)

Inductive exn : Type :=
  | KeyError (k : string)
  | TypeError
  | ValueError
  | AttributeError
  | NotFound
  | SMTPException.

Inductive result (A : Type) : Type :=
  | Ok (a : A)
  | Raise (e : exn).
Arguments Ok {A} a.
Arguments Raise {A} e.

Global Instance result_ret : MRet result := λ A a, Ok a.
Global Instance result_bind : MBind result := λ A B f r,
  match r with
  | Ok a => f a
  | Raise e => Raise e
  end.

(** The values a Firestore document (or a Python local) can hold. *)
Inductive value : Type :=
  | VNull
  | VBool (b : bool)
  | VNum (q : Q)
  | VStr (s : string)
  | VTime (t : Z)
  | VList (l : list value)
  | VMap (m : gmap string value).

Abbreviation dict := (gmap string value).

(** [d[k]] on a dict. *)
Definition getitem (d : dict) (k : string) : result value :=
  match d !! k with
  | Some v => Ok v
  | None => Raise (KeyError k)
  end.

(** [v[k]] with a string key on an arbitrary value: only dicts accept it. *)
Definition subscript (v : value) (k : string) : result value :=
  match v with
  | VMap m => getitem m k
  | _ => Raise TypeError
  end.

Fixpoint characters (s : string) : list value :=
  match s with
  | EmptyString => []
  | String c s' => VStr (String c EmptyString) :: characters s'
  end.

(** [for b in v]: lists yield their elements, dicts their keys, strings
    their characters; nothing else is iterable. *)
Definition iterate (v : value) : result (list value) :=
  match v with
  | VList l => Ok l
  | VMap m => Ok (VStr <$> (map_to_list m).*1)
  | VStr s => Ok (characters s)
  | _ => Raise TypeError
  end.

Fixpoint mapM {A B : Type} (f : A → result B) (l : list A) : result (list B) :=
  match l with
  | [] => Ok []
  | a :: l' => b ← f a; bs ← mapM f l'; Ok (b :: bs)
  end.

(** ** The geometry engine: locating a point against a ring

    [polygon.contains(point)] is the OGC predicate: the point lies in the
    interior of the polygon.  The engine decides it by locating the point
    against the shell with a ray-crossing counter; a point found on a
    segment is on the boundary.  The x axis carries the latitude and the y
    axis the longitude, as [Point(lat, long)] and [(b['lat'], b['lng'])]
    put them. *)
Module Geos.

Definition Coordinate : Type := (Q * Q)%type.

Definition Qltb (a b : Q) : bool := negb (Qle_bool b a).

Definition equals2D (p q : Coordinate) : bool :=
  Qeq_bool p.1 q.1 && Qeq_bool p.2 q.2.

(** Sign of the cross product of [p2 - p1] and [q - p2]: [1] when [q] is
    to the left of the directed line [p1 -> p2], [-1] to the right, [0]
    when the three are collinear. *)
Definition orientationIndex (p1 p2 q : Coordinate) : Z :=
  let dx1 := (p2.1 - p1.1)%Q in
  let dy1 := (p2.2 - p1.2)%Q in
  let dx2 := (q.1 - p2.1)%Q in
  let dy2 := (q.2 - p2.2)%Q in
  Z.sgn (Qnum (dx1 * dy2 - dy1 * dx2)%Q).

Record RayCrossingCounter : Type := {
  crossingCount : nat;
  isPointOnSegment : bool
}.

Definition rcc_init : RayCrossingCounter :=
  {| crossingCount := 0; isPointOnSegment := false |}.

Definition on_segment (c : RayCrossingCounter) : RayCrossingCounter :=
  {| crossingCount := crossingCount c; isPointOnSegment := true |}.

Definition crossed (c : RayCrossingCounter) : RayCrossingCounter :=
  {| crossingCount := S (crossingCount c);
     isPointOnSegment := isPointOnSegment c |}.

(** One segment against the horizontal ray from [pt] towards positive x. *)
Definition countSegment (pt p1 p2 : Coordinate) (c : RayCrossingCounter)
  : RayCrossingCounter :=
  if Qltb p1.1 pt.1 && Qltb p2.1 pt.1 then c
  else if Qeq_bool pt.1 p2.1 && Qeq_bool pt.2 p2.2 then on_segment c
  else if Qeq_bool p1.2 pt.2 && Qeq_bool p2.2 pt.2 then
    let minx := if Qltb p2.1 p1.1 then p2.1 else p1.1 in
    let maxx := if Qltb p2.1 p1.1 then p1.1 else p2.1 in
    if Qle_bool minx pt.1 && Qle_bool pt.1 maxx then on_segment c else c
  else if (Qltb pt.2 p1.2 && Qle_bool p2.2 pt.2)
       || (Qltb pt.2 p2.2 && Qle_bool p1.2 pt.2) then
    let sign := orientationIndex p1 p2 pt in
    if (sign =? 0)%Z then on_segment c
    else
      let sign' := if Qltb p2.2 p1.2 then (- sign)%Z else sign in
      if (0 <? sign')%Z then crossed c else c
  else c.

(** The loop over the consecutive pairs of the ring, left as soon as the
    point is found on a segment. *)
Fixpoint countRing (pt : Coordinate) (ring : list Coordinate)
    (c : RayCrossingCounter) : RayCrossingCounter :=
  match ring with
  | p1 :: ((p2 :: _) as rest) =>
      let c' := countSegment pt p1 p2 c in
      if isPointOnSegment c' then c' else countRing pt rest c'
  | _ => c
  end.

Inductive Location : Type := INTERIOR | BOUNDARY | EXTERIOR.

Definition getLocation (c : RayCrossingCounter) : Location :=
  if isPointOnSegment c then BOUNDARY
  else if Nat.odd (crossingCount c) then INTERIOR
  else EXTERIOR.

Definition locatePointInRing (pt : Coordinate) (ring : list Coordinate)
  : Location :=
  getLocation (countRing pt ring rcc_init).

End Geos.

(** ** Shapely geometries *)

Inductive polygon : Type :=
  | POLYGON_EMPTY
  | POLYGON (shell : list Geos.Coordinate).

(** The shell of [Polygon(coords)]: no coordinates give the empty
    geometry, one or two are refused with [ValueError], three are always
    closed with a copy of the first, and four or more are closed unless the
    last already repeats the first. *)
Definition LinearRing (coords : list Geos.Coordinate) : result polygon :=
  match coords with
  | [] => Ok POLYGON_EMPTY
  | [_] | [_; _] => Raise ValueError
  | [p; _; _] => Ok (POLYGON (coords ++ [p]))
  | p :: _ =>
      if Geos.equals2D p (List.last coords p) then Ok (POLYGON coords)
      else Ok (POLYGON (coords ++ [p]))
  end.

(** [polygon.contains(Point(x, y))]. *)
Definition contains (poly : polygon) (pt : Geos.Coordinate) : bool :=
  match poly with
  | POLYGON_EMPTY => false
  | POLYGON shell =>
      match Geos.locatePointInRing pt shell with
      | Geos.INTERIOR => true
      | _ => false
      end
  end.

(** ** The boundary of a polygon

    The edges of the polygon drawn by a vertex list: consecutive vertices
    are joined, and the last is joined back to the first. *)
Fixpoint segments (ring : list Geos.Coordinate)
  : list (Geos.Coordinate * Geos.Coordinate) :=
  match ring with
  | p1 :: ((p2 :: _) as rest) => (p1, p2) :: segments rest
  | _ => []
  end.

Definition edges (vs : list Geos.Coordinate)
  : list (Geos.Coordinate * Geos.Coordinate) :=
  segments (vs ++ take 1 vs).

Definition same_point (p q : Geos.Coordinate) : Prop :=
  (p.1 == q.1)%Q ∧ (p.2 == q.2)%Q.

(** [pt] lies on the closed segment from [a] to [b]: the three points are
    collinear and [pt] is within the bounding box of the segment. *)
Definition lies_on_segment (pt a b : Geos.Coordinate) : Prop :=
  ((b.1 - a.1) * (pt.2 - a.2) == (b.2 - a.2) * (pt.1 - a.1))%Q
  ∧ ((a.1 <= pt.1 ∧ pt.1 <= b.1) ∨ (b.1 <= pt.1 ∧ pt.1 <= a.1))%Q
  ∧ ((a.2 <= pt.2 ∧ pt.2 <= b.2) ∨ (b.2 <= pt.2 ∧ pt.2 <= a.2))%Q.

Definition on_boundary (pt : Geos.Coordinate) (vs : list Geos.Coordinate)
  : Prop :=
  ∃ a b, (a, b) ∈ edges vs ∧ lies_on_segment pt a b.

(** A ring whose last coordinate repeats the first. *)
Definition ring_closed (ring : list Geos.Coordinate) : Prop :=
  ∃ h l, ring = h :: l ∧ l ≠ [] ∧ same_point h (List.last l h).

(** A segment on which the counter reports the point, whatever it has
    counted so far. *)
Definition detects (pt a b : Geos.Coordinate) : Prop :=
  ∀ c, Geos.isPointOnSegment (Geos.countSegment pt a b c) = true.

(** ** The world: Firestore, its clock, and the trace of effects *)

(** The notification payload handed to the transport: recipient, the two
    values of the subject line, and the values of the HTML body in the
    order the template reads them. *)
Record message : Type := Message {
  msg_to : value;
  subject_ward : value;
  subject_category : value;
  body_ward : value;
  body_ward_id : value;
  body_category : value;
  body_description : value;
  body_latitude : value;
  body_longitude : value;
  body_reported_on : Z;
  body_issue_id : value
}.

(** What an update may carry for a field: a value, or the sentinel
    [firestore.SERVER_TIMESTAMP] that the server replaces by its clock. *)
Inductive field_update : Type :=
  | Value (v : value)
  | SERVER_TIMESTAMP.

Abbreviation updates := (gmap string field_update).

Inductive event : Type :=
  | EvUpdate (issue_id : string) (fields : updates)
  | EvSend (msg : message).

Record world : Type := World {
  ward_collection : gmap string dict;
  issues_collection : gmap string dict;
  server_time : Z;
  trace : list event
}.

Definition M (A : Type) : Type := world → result A * world.

Global Instance M_ret : MRet M := λ A a w, (Ok a, w).
Global Instance M_bind : MBind M := λ A B f m w,
  match m w with
  | (Ok a, w') => f a w'
  | (Raise e, w') => (Raise e, w')
  end.

Definition lift {A : Type} (r : result A) : M A := λ w, (r, w).

(** [try: body except Exception as e: handler]. *)
Definition try_except {A : Type} (body : M A) (handler : exn → M A) : M A :=
  λ w,
    match body w with
    | (Ok a, w') => (Ok a, w')
    | (Raise e, w') => handler e w'
    end.

(** [db.collection('issues').document(issue_id).get()]; [None] stands for
    a snapshot whose [exists] is false. *)
Definition document_get (issue_id : string) : M (option dict) :=
  λ w, (Ok (issues_collection w !! issue_id), w).

Definition resolve (t : Z) (u : field_update) : value :=
  match u with
  | Value v => v
  | SERVER_TIMESTAMP => VTime t
  end.

(** [issue_ref.update(fields)]: all the fields are written in one step
    over the existing document; a missing document is an error. *)
Definition document_update (issue_id : string) (fields : updates) : M () :=
  λ w,
    match issues_collection w !! issue_id with
    | None => (Raise NotFound, w)
    | Some d =>
        (Ok (),
         {| ward_collection := ward_collection w;
            issues_collection :=
              <[issue_id := (resolve (server_time w) <$> fields) ∪ d]>
                (issues_collection w);
            server_time := server_time w + 1;
            trace := trace w ++ [EvUpdate issue_id fields] |})
    end.

Definition id_le (a b : string * dict) : Prop := String.le a.1 b.1.

Global Instance id_le_dec : RelDecision id_le.
Proof. intros a b. unfold id_le. apply _. Defined.

(** [list(db.collection('ward').stream())]: an unordered query returns the
    documents in ascending order of document id. *)
Definition stream (c : gmap string dict) : list (string * dict) :=
  merge_sort id_le (map_to_list c).

Definition stream_wards : M (list (string * dict)) :=
  λ w, (Ok (stream (ward_collection w)), w).

(** [created_at.strftime(...)]: only timestamps have the method. *)
Definition strftime (v : value) : result Z :=
  match v with
  | VTime t => Ok t
  | _ => Raise AttributeError
  end.

(** ** Sample data *)

Definition vertex (lat lng : Q) : value :=
  VMap (<["lat" := VNum lat]> {["lng" := VNum lng]}).

Definition vertex_of (p : Geos.Coordinate) : value := vertex p.1 p.2.

Definition central_ward : dict :=
  <["ward_id" := VStr "ward001"]>
  (<["name" := VStr "Central Ward"]>
  (<["officer_email" := VStr "aryaniaf2608@gmail.com"]>
  (<["boundaries" := VList [vertex (129716 # 10000) (775946 # 10000);
                            vertex (129796 # 10000) (775946 # 10000);
                            vertex (129796 # 10000) (776046 # 10000);
                            vertex (129716 # 10000) (776046 # 10000)]]>
  {["area_sq_meters" := VNum 120000]}))).

Definition north_ward : dict :=
  <["ward_id" := VStr "ward002"]>
  (<["name" := VStr "North Ward"]>
  (<["officer_email" := VStr "nikhilrrvk@gmail.com"]>
  (<["boundaries" := VList [vertex (130016 # 10000) (775946 # 10000);
                            vertex (130096 # 10000) (775946 # 10000);
                            vertex (130096 # 10000) (776046 # 10000);
                            vertex (130016 # 10000) (776046 # 10000)]]>
  {["area_sq_meters" := VNum 140000]}))).

Definition sample_wards : list dict := [central_ward; north_ward].

(** [wards_ref.document(ward['ward_id']).set(ward)] for each sample ward. *)
Fixpoint set_wards (wards : list dict) (c : gmap string dict)
  : result (gmap string dict) :=
  match wards with
  | [] => Ok c
  | ward :: rest =>
      k ← getitem ward "ward_id";
      match k with
      | VStr ward_id => set_wards rest (<[ward_id := ward]> c)
      | _ => Raise TypeError
      end
  end.

Definition setup_ward_collection : M () :=
  λ w,
    match stream (ward_collection w) with
    | [] =>
        match set_wards sample_wards (ward_collection w) with
        | Ok c =>
            (Ok (),
             {| ward_collection := c;
                issues_collection := issues_collection w;
                server_time := server_time w;
                trace := trace w |})
        | Raise e => (Raise e, w)
        end
    | _ => (Ok (), w)
    end.

(** The issue written by [test_with_sample_issue]; [created] is the value
    of [datetime.now()]. *)
Definition sample_issue (created : Z) : dict :=
  <["latitude" := VNum (129756 # 10000)]>
  (<["longitude" := VNum (775996 # 10000)]>
  (<["category" := VStr "Road Damage"]>
  (<["category_kannada" := VStr "ರಸ್ತೆ ಹಾನಿ"]>
  (<["description" := VStr "Large pothole causing traffic issues"]>
  (<["description_kannada" :=
       VStr "ದೊಡ್ಡ ಗುಂಡಿ ಟ್ರಾಫಿಕ್ ಸಮಸ್ಯೆಗಳನ್ನು ಉಂಟುಮಾಡುತ್ತಿದೆ"]>
  (<["status" := VStr "open"]>
  (<["created_at" := VTime created]>
  (<["image" := VStr "/workspaces/urbanTrustApi/new_pothole.JPG"]>
  {["similar_count" := VNum 0]})))))))).

Definition empty_world : world :=
  {| ward_collection := ∅; issues_collection := ∅;
     server_time := 0; trace := [] |}.

(** Two environments: a mail server that accepts every session and one
    that refuses every session; no string spells a number. *)
Definition no_numeric_strings : string → option Q := λ _, None.
Definition smtp_up : list event → message → bool := λ _ _, true.
Definition smtp_down : list event → message → bool := λ _ _, false.

(** The ward collection after [setup_ward_collection] ran on an empty
    database. *)
Definition seeded_wards : gmap string dict :=
  ward_collection (setup_ward_collection empty_world).2.

Definition seeded_world (issue_id : string) (created : Z) : world :=
  {| ward_collection := seeded_wards;
     issues_collection := {[issue_id := sample_issue created]};
     server_time := 0;
     trace := [] |}.

(** An issue reported far away from both sample wards. *)
Definition far_issue (created : Z) : dict :=
  <["latitude" := VNum 10]> (<["longitude" := VNum 10]> (sample_issue created)).

Definition far_world (issue_id : string) (created : Z) : world :=
  {| ward_collection := seeded_wards;
     issues_collection := {[issue_id := far_issue created]};
     server_time := 0;
     trace := [] |}.

(** A ward whose polygon covers both sample wards. *)
Definition district_ward : dict :=
  <["ward_id" := VStr "ward003"]>
  (<["name" := VStr "District"]>
  (<["officer_email" := VStr "district@example.org"]>
  {["boundaries" := VList [vertex (129000 # 10000) (775000 # 10000);
                           vertex (131000 # 10000) (775000 # 10000);
                           vertex (131000 # 10000) (777000 # 10000);
                           vertex (129000 # 10000) (777000 # 10000)]]})).

Definition overlap_world : world :=
  {| ward_collection := <["ward003" := district_ward]> seeded_wards;
     issues_collection := ∅;
     server_time := 0;
     trace := [] |}.

(** A ward record whose boundary has only two vertices. *)
Definition sliver_ward : dict :=
  <["ward_id" := VStr "ward000"]>
  (<["name" := VStr "Sliver"]>
  (<["officer_email" := VStr "sliver@example.org"]>
  {["boundaries" := VList [vertex (129716 # 10000) (775946 # 10000);
                           vertex (129796 # 10000) (775946 # 10000)]]})).

Definition sliver_world (issue_id : string) (created : Z) : world :=
  {| ward_collection := <["ward000" := sliver_ward]> seeded_wards;
     issues_collection := {[issue_id := sample_issue created]};
     server_time := 0;
     trace := [] |}.

(** The same world with one ward record taken out. *)
Definition without_ward (k : string) (w : world) : world :=
  {| ward_collection := delete k (ward_collection w);
     issues_collection := issues_collection w;
     server_time := server_time w;
     trace := trace w |}.


(** ** Further data for the properties below *)

(** The boundary of an axis-aligned rectangle, listed the way the sample
    wards list theirs: along the first axis, up, back, down. *)
Definition rectangle (x0 y0 x1 y1 : Q) : list Geos.Coordinate :=
  [(x0, y0); (x1, y0); (x1, y1); (x0, y1)].

(** The point lies strictly between the two opposite corners. *)
Definition strictly_inside (x0 y0 x1 y1 x y : Q) : bool :=
  Geos.Qltb x0 x && Geos.Qltb x x1 && Geos.Qltb y0 y && Geos.Qltb y y1.

(** The fields that [process_new_issue] writes on an issue. *)
Definition written_keys : list string :=
  ["ward_assigned"; "notification_sent"; "ward_id"; "ward_name";
   "notification_email_sent"; "notification_time"].

(** An event that concerns the issue [issue_id] only. *)
Definition about_issue (issue_id : string) (e : event) : Prop :=
  match e with
  | EvUpdate i _ => i = issue_id
  | EvSend _ => True
  end.

(** Every field the e-mail template reads is there, and [created_at] is a
    timestamp. *)
Definition payload_ready (issue_data ward_data : dict) : Prop :=
  is_Some (ward_data !! "name")
  ∧ is_Some (ward_data !! "ward_id")
  ∧ is_Some (issue_data !! "category")
  ∧ is_Some (issue_data !! "description")
  ∧ is_Some (issue_data !! "latitude")
  ∧ is_Some (issue_data !! "longitude")
  ∧ (∃ t, issue_data !! "created_at" = Some (VTime t))
  ∧ is_Some (issue_data !! "id").

(** [issue_ref.set(issue_data)]: the document is created, or replaced if
    the id is taken. *)
Definition document_set (issue_id : string) (d : dict) : M () :=
  λ w,
    (Ok (),
     {| ward_collection := ward_collection w;
        issues_collection := <[issue_id := d]> (issues_collection w);
        server_time := server_time w;
        trace := trace w |}).

(** Truth value of an environment variable read with [os.getenv]: unset
    and empty are both false. *)
Definition truthy (o : option string) : bool :=
  match o with
  | None => false
  | Some s => negb (String.eqb s "")
  end.

(** The attributes set by [WardNotificationSystem.__init__]. *)
Record system : Type := System {
  email_sender : option string;
  email_password : option string;
  smtp_server : string;
  smtp_port : Z
}.



(** Central Ward stored without its [name]. *)
Definition nameless_world (issue_id : string) (created : Z) : world :=
  {| ward_collection := {["ward001" := delete "name" central_ward]};
     issues_collection := {[issue_id := sample_issue created]};
     server_time := 0;
     trace := [] |}.

(** Central Ward stored without its [officer_email]. *)
Definition unstaffed_world (issue_id : string) (created : Z) : world :=
  {| ward_collection := {["ward001" := delete "officer_email" central_ward]};
     issues_collection := {[issue_id := sample_issue created]};
     server_time := 0;
     trace := [] |}.

(** The sample issue stored without its [latitude]. *)
Definition blind_world (issue_id : string) (created : Z) : world :=
  {| ward_collection := seeded_wards;
     issues_collection := {[issue_id := delete "latitude" (sample_issue created)]};
     server_time := 0;
     trace := [] |}.

(** An environment with both credentials and the default port. *)
Definition sample_environ : gmap string string :=
  <["EMAIL_SENDER" := "city@example.org"]> {["EMAIL_PASSWORD" := "secret"]}.

Definition decimal_587 : string → option Z :=
  λ s, if String.eqb s "587" then Some 587%Z else None.


(** Central Ward stored without its [ward_id]. *)
Definition unlabelled_world (issue_id : string) (created : Z) : world :=
  {| ward_collection := {["ward001" := delete "ward_id" central_ward]};
     issues_collection := {[issue_id := sample_issue created]};
     server_time := 0;
     trace := [] |}.

(** The two sample wards, a two-vertex ward stored after them, and an
    issue far away from all of them. *)
Definition far_sliver_world (issue_id : string) (created : Z) : world :=
  {| ward_collection := <["ward999" := sliver_ward]> seeded_wards;
     issues_collection := {[issue_id := far_issue created]};
     server_time := 0;
     trace := [] |}.

(** The document updates of a trace, in order. *)
Fixpoint writes (t : list event) : list (string * updates) :=
  match t with
  | [] => []
  | EvUpdate i f :: t' => (i, f) :: writes t'
  | EvSend _ :: t' => writes t'
  end.

(** ** The pipeline *)

Section Environment.

(** [float(s)] on a string: the number it spells, if any. *)
Variable float_of_str : string → option Q.

(** One SMTP session (connect, STARTTLS, login, send): [true] when every
    step went through, [false] when one of them raised.  The server may
    answer according to everything that happened before. *)
Variable smtp : list event → message → bool.

Definition py_float (v : value) : result Q :=
  match v with
  | VNum q => Ok q
  | VBool b => Ok (if b then 1 else 0)%Q
  | VStr s =>
      match float_of_str s with
      | Some q => Ok q
      | None => Raise ValueError
      end
  | _ => Raise TypeError
  end.

(** [[float(c) for c in o]] on one coordinate tuple. *)
Definition float_coords (o : value * value) : result Geos.Coordinate :=
  x ← py_float o.1; y ← py_float o.2; Ok (x, y).

(** [Polygon(polygon_coords)]: every coordinate goes through [float]. *)
Definition Polygon (coords : list (value * value)) : result polygon :=
  cs ← mapM float_coords coords;
  LinearRing cs.

(** [(b['lat'], b['lng'])] for one element of the boundary. *)
Definition lat_lng (b : value) : result (value * value) :=
  la ← subscript b "lat"; ln ← subscript b "lng"; Ok (la, ln).

Definition point_in_polygon (lat long : Q) (boundaries : value)
  : result bool :=
  bs ← iterate boundaries;
  polygon_coords ← mapM lat_lng bs;
  polygon ← Polygon polygon_coords;
  Ok (contains polygon (lat, long)).

(** [ward = ward_doc.to_dict(); ward['id'] = ward_doc.id]. *)
Definition to_dict (ward_doc : string * dict) : dict :=
  <["id" := VStr ward_doc.1]> ward_doc.2.

(** ['boundaries' in ward and self.point_in_polygon(lat, long,
    ward['boundaries'])]. *)
Definition covers (lat long : Q) (ward : dict) : result bool :=
  match ward !! "boundaries" with
  | None => Ok false
  | Some boundaries => point_in_polygon lat long boundaries
  end.

(** The [for ward_doc in wards] loop of [find_ward_for_location]. *)
Fixpoint ward_loop (lat long : Q) (wards : list (string * dict))
  : result (option dict) :=
  match wards with
  | [] => Ok None
  | ward_doc :: rest =>
      let ward := to_dict ward_doc in
      inside ← covers lat long ward;
      if inside : bool then
        _ ← getitem ward "name"; Ok (Some ward)
      else ward_loop lat long rest
  end.

Definition find_ward_for_location (lat long : Q) : M (option dict) :=
  wards ← stream_wards;
  match wards with
  | [] => mret None
  | _ => lift (ward_loop lat long wards)
  end.

(** The [with smtplib.SMTP(...) as server] block. *)
Definition smtp_session (msg : message) : M () :=
  λ w,
    let w' :=
      {| ward_collection := ward_collection w;
         issues_collection := issues_collection w;
         server_time := server_time w;
         trace := trace w ++ [EvSend msg] |} in
    if smtp (trace w) msg then (Ok (), w') else (Raise SMTPException, w').

Definition build_message (officer_email : value)
    (issue_data ward_data : dict) : result message :=
  s_ward ← getitem ward_data "name";
  s_cat ← getitem issue_data "category";
  b_ward ← getitem ward_data "name";
  b_wid ← getitem ward_data "ward_id";
  b_cat ← getitem issue_data "category";
  b_desc ← getitem issue_data "description";
  b_lat ← getitem issue_data "latitude";
  b_lng ← getitem issue_data "longitude";
  created ← getitem issue_data "created_at";
  b_time ← strftime created;
  b_id ← getitem issue_data "id";
  Ok (Message officer_email s_ward s_cat b_ward b_wid b_cat b_desc
              b_lat b_lng b_time b_id).

Definition send_email_notification (officer_email : value)
    (issue_data ward_data : dict) : M bool :=
  try_except
    (msg ← lift (build_message officer_email issue_data ward_data);
     smtp_session msg;;
     mret true)
    (λ _, mret false).

Definition process_new_issue (issue_id : string) : M bool :=
  try_except
    (issue_doc ← document_get issue_id;
     match issue_doc with
     | None => mret false
     | Some d =>
         let issue_data := <["id" := VStr issue_id]> d in
         lat_v ← lift (getitem issue_data "latitude");
         long_v ← lift (getitem issue_data "longitude");
         lat ← lift (py_float lat_v);
         long ← lift (py_float long_v);
         ward ← find_ward_for_location lat long;
         match ward with
         | None =>
             document_update issue_id
               (<["ward_assigned" := Value (VBool false)]>
                  {["notification_sent" := Value (VBool false)]});;
             mret false
         | Some ward =>
             ward_id ← lift (getitem ward "ward_id");
             ward_name ← lift (getitem ward "name");
             document_update issue_id
               (<["ward_id" := Value ward_id]>
                  (<["ward_name" := Value ward_name]>
                     {["ward_assigned" := Value (VBool true)]}));;
             officer_email ← lift (getitem ward "officer_email");
             email_sent ←
               send_email_notification officer_email issue_data ward;
             document_update issue_id
               (<["notification_sent" := Value (VBool email_sent)]>
                  (<["notification_email_sent" := Value (VBool email_sent)]>
                     {["notification_time" := SERVER_TIMESTAMP]}));;
             mret true
         end
     end)
    (λ _, mret false).


(** ** Worlds reached and effects observed *)

(** The world after a successful [document_update]. *)
Definition write (issue_id : string) (fields : updates) (d : dict)
    (w : world) : world :=
  {| ward_collection := ward_collection w;
     issues_collection :=
       <[issue_id := (resolve (server_time w) <$> fields) ∪ d]>
         (issues_collection w);
     server_time := server_time w + 1;
     trace := trace w ++ [EvUpdate issue_id fields] |}.

(** The world after an SMTP session was attempted. *)
Definition attempted (msg : message) (w : world) : world :=
  {| ward_collection := ward_collection w;
     issues_collection := issues_collection w;
     server_time := server_time w;
     trace := trace w ++ [EvSend msg] |}.

(** The messages handed to the transport, in order. *)
Fixpoint sends (t : list event) : list message :=
  match t with
  | [] => []
  | EvSend m :: t' => m :: sends t'
  | EvUpdate _ _ :: t' => sends t'
  end.

Definition no_coverage_fields : updates :=
  <["ward_assigned" := Value (VBool false)]>
    {["notification_sent" := Value (VBool false)]}.

Definition assignment_fields (ward_id ward_name : value) : updates :=
  <["ward_id" := Value ward_id]>
    (<["ward_name" := Value ward_name]>
       {["ward_assigned" := Value (VBool true)]}).

Definition status_fields (email_sent : bool) : updates :=
  <["notification_sent" := Value (VBool email_sent)]>
    (<["notification_email_sent" := Value (VBool email_sent)]>
       {["notification_time" := SERVER_TIMESTAMP]}).

(** The two coordinates of an issue, as [process_new_issue] reads them. *)
Definition coordinates (issue_data : dict) : result (Q * Q) :=
  lat_v ← getitem issue_data "latitude";
  long_v ← getitem issue_data "longitude";
  lat ← py_float lat_v;
  long ← py_float long_v;
  Ok (lat, long).

(** What one invocation of [process_new_issue] does, path by path. *)
Definition process_resolved (issue_id : string) (d issue_data ward : dict)
    (w : world) : result bool * world :=
  match getitem ward "ward_id" with
  | Raise _ => (Ok false, w)
  | Ok ward_id =>
      match getitem ward "name" with
      | Raise _ => (Ok false, w)
      | Ok ward_name =>
          let fields := assignment_fields ward_id ward_name in
          let w1 := write issue_id fields d w in
          let d1 := (resolve (server_time w) <$> fields) ∪ d in
          match getitem ward "officer_email" with
          | Raise _ => (Ok false, w1)
          | Ok officer_email =>
              match build_message officer_email issue_data ward with
              | Raise _ =>
                  (Ok true, write issue_id (status_fields false) d1 w1)
              | Ok msg =>
                  let email_sent := smtp (trace w1) msg in
                  (Ok true,
                   write issue_id (status_fields email_sent) d1
                     (attempted msg w1))
              end
          end
      end
  end.

(** A field of an issue document in the store. *)
Definition field (w : world) (issue_id k : string) : option value :=
  d ← issues_collection w !! issue_id; d !! k.

(** No ward of the list contains the point. *)
Definition uncovered (lat long : Q) (wards : list (string * dict)) : Prop :=
  Forall (λ ward_doc, covers lat long (to_dict ward_doc) = Ok false) wards.

(** The fields of an issue that the pipeline reads. *)
Definition read_keys : list string :=
  ["latitude"; "longitude"; "category"; "description"; "created_at"; "id"].

(** ** The stated contracts, for comparison with the code *)

(** Both the assignment and the notification of the issue are settled. *)
Definition fully_processed (w : world) (issue_id : string) : Prop :=
  field w issue_id "ward_assigned" = Some (VBool true)
  ∧ field w issue_id "notification_sent" = Some (VBool true).

(** Processing the issue from [w] hands nothing to the transport. *)
Definition sends_nothing_more (issue_id : string) (w : world) : Prop :=
  sends (trace (process_new_issue issue_id w).2) = sends (trace w).

(** The ward [k] is left out of the matching and the lookup goes on over
    the other wards. *)
Definition skips_ward (lat long : Q) (w : world) (k : string) : Prop :=
  (find_ward_for_location lat long w).1
  = (find_ward_for_location lat long (without_ward k w)).1.

(** The dispatcher opened exactly one SMTP session. *)
Definition one_transport_call (officer_email : value)
    (issue_data ward_data : dict) (w : world) : Prop :=
  length (sends (trace
    (send_email_notification officer_email issue_data ward_data w).2))
  = S (length (sends (trace w))).

(** ** The rest of the program *)

(** The ways one invocation of [process_new_issue] can go, with the
    result and the world each one ends in. *)
Inductive process_path (issue_id : string) (w : world)
  : result bool * world → Prop :=
  | path_stopped :
      process_path issue_id w (Ok false, w)
  | path_no_coverage d lat long :
      issues_collection w !! issue_id = Some d →
      coordinates (<["id" := VStr issue_id]> d) = Ok (lat, long) →
      ward_loop lat long (stream (ward_collection w)) = Ok None →
      process_path issue_id w
        (Ok false, write issue_id no_coverage_fields d w)
  | path_assigned d lat long ward ward_id ward_name :
      issues_collection w !! issue_id = Some d →
      coordinates (<["id" := VStr issue_id]> d) = Ok (lat, long) →
      ward_loop lat long (stream (ward_collection w)) = Ok (Some ward) →
      ward !! "ward_id" = Some ward_id →
      ward !! "name" = Some ward_name →
      ward !! "officer_email" = None →
      process_path issue_id w
        (Ok false,
         write issue_id (assignment_fields ward_id ward_name) d w)
  | path_unsent d lat long ward ward_id ward_name officer_email e :
      issues_collection w !! issue_id = Some d →
      coordinates (<["id" := VStr issue_id]> d) = Ok (lat, long) →
      ward_loop lat long (stream (ward_collection w)) = Ok (Some ward) →
      ward !! "ward_id" = Some ward_id →
      ward !! "name" = Some ward_name →
      ward !! "officer_email" = Some officer_email →
      build_message officer_email (<["id" := VStr issue_id]> d) ward
        = Raise e →
      process_path issue_id w
        (Ok true,
         write issue_id (status_fields false)
           ((resolve (server_time w)
               <$> assignment_fields ward_id ward_name) ∪ d)
           (write issue_id (assignment_fields ward_id ward_name) d w))
  | path_sent d lat long ward ward_id ward_name officer_email msg :
      issues_collection w !! issue_id = Some d →
      coordinates (<["id" := VStr issue_id]> d) = Ok (lat, long) →
      ward_loop lat long (stream (ward_collection w)) = Ok (Some ward) →
      ward !! "ward_id" = Some ward_id →
      ward !! "name" = Some ward_name →
      ward !! "officer_email" = Some officer_email →
      build_message officer_email (<["id" := VStr issue_id]> d) ward
        = Ok msg →
      process_path issue_id w
        (Ok true,
         write issue_id
           (status_fields
              (smtp (trace w
                     ++ [EvUpdate issue_id
                           (assignment_fields ward_id ward_name)]) msg))
           ((resolve (server_time w)
               <$> assignment_fields ward_id ward_name) ∪ d)
           (attempted msg
              (write issue_id (assignment_fields ward_id ward_name) d w))).

(** [WardNotificationSystem()]: the configuration is read from the
    process environment; only the conversion of [SMTP_PORT] can fail.
    [int_of_str] is [int(s)] on a string: the integer it spells, if
    any. *)
Definition WardNotificationSystem (int_of_str : string → option Z)
    (environ : gmap string string) : result system :=
  let sender := environ !! "EMAIL_SENDER" in
  let password := environ !! "EMAIL_PASSWORD" in
  let server := default "smtp.gmail.com" (environ !! "SMTP_SERVER") in
  match int_of_str (default "587" (environ !! "SMTP_PORT")) with
  | Some port => Ok (System sender password server port)
  | None => Raise ValueError
  end.

(** [test_with_sample_issue]: the sample issue is stored under the id
    [issue_id] that Firestore generated, [now] being the value of
    [datetime.now()], and processed; the result of the processing is what
    the function reports. *)
Definition test_with_sample_issue (issue_id : string) (now : Z) : M bool :=
  document_set issue_id (sample_issue now);;
  process_new_issue issue_id.

(** [main]; [setup_firestore_trigger] only prints and is left out. *)
Definition main (int_of_str : string → option Z)
    (environ : gmap string string) (issue_id : string) (now : Z) : M () :=
  sys ← lift (WardNotificationSystem int_of_str environ);
  if negb (truthy (email_sender sys)) || negb (truthy (email_password sys))
  then mret ()
  else
    setup_ward_collection;;
    test_with_sample_issue issue_id now;;
    mret ().

(** ** Further stated contracts, for comparison with the code *)

(** The point lies in the polygon of none of the wards. *)
Definition in_no_polygon (lat long : Q) (wards : list (string * dict))
  : Prop :=
  Forall (λ ward_doc, covers lat long (to_dict ward_doc) ≠ Ok true) wards.

(** The no-coverage outcome is on the record after processing. *)
Definition no_coverage_persisted (issue_id : string) (w : world) : Prop :=
  field (process_new_issue issue_id w).2 issue_id "ward_assigned"
    = Some (VBool false)
  ∧ field (process_new_issue issue_id w).2 issue_id "notification_sent"
    = Some (VBool false).

(** The ward assignment is on the record after processing. *)
Definition assignment_persisted (issue_id : string) (w : world) : Prop :=
  field (process_new_issue issue_id w).2 issue_id "ward_assigned"
    = Some (VBool true).

(** The lookup returns the first ward, in iteration order, whose polygon
    contains the point. *)
Definition returns_first_containing (lat long : Q) (w : world) : Prop :=
  ∀ pre ward_doc post,
    stream (ward_collection w) = pre ++ ward_doc :: post →
    in_no_polygon lat long pre →
    covers lat long (to_dict ward_doc) = Ok true →
    (find_ward_for_location lat long w).1 = Ok (Some (to_dict ward_doc)).

(** * Properties *)

Example contains_unit_square_centre :
  (p ← LinearRing [(0, 0); (1, 0); (1, 1); (0, 1)]%Q;
   Ok (contains p (1 # 2, 1 # 2))) = Ok true.
Proof. reflexivity. Qed.

Example contains_unit_square_outside :
  (p ← LinearRing [(0, 0); (1, 0); (1, 1); (0, 1)]%Q;
   Ok (contains p (3 # 2, 1 # 2))) = Ok false.
Proof. reflexivity. Qed.

Lemma document_update_Some issue_id fields d w :
  issues_collection w !! issue_id = Some d →
  document_update issue_id fields w = (Ok (), write issue_id fields d w).
Proof. intros H. unfold document_update. by rewrite H. Qed.

Lemma write_lookup issue_id fields d w :
  issues_collection (write issue_id fields d w) !! issue_id
  = Some ((resolve (server_time w) <$> fields) ∪ d).
Proof. cbn. apply lookup_insert_eq. Qed.

Lemma sends_app t1 t2 : sends (t1 ++ t2) = sends t1 ++ sends t2.
Proof.
  induction t1 as [|[i f|m] t1 IH]; cbn; [done|done|by rewrite IH].
Qed.

Lemma find_ward_for_location_run lat long w :
  find_ward_for_location lat long w
  = (ward_loop lat long (stream (ward_collection w)), w).
Proof.
  unfold find_ward_for_location, stream_wards, mbind, M_bind.
  by destruct (stream (ward_collection w)).
Qed.

Lemma send_email_notification_run officer_email issue_data ward_data w :
  send_email_notification officer_email issue_data ward_data w
  = match build_message officer_email issue_data ward_data with
    | Ok msg => (Ok (smtp (trace w) msg), attempted msg w)
    | Raise _ => (Ok false, w)
    end.
Proof.
  unfold send_email_notification, try_except, mbind, M_bind, lift.
  destruct (build_message _ _ _) as [msg|e]; [|done].
  unfold smtp_session, attempted.
  by destruct (smtp (trace w) msg).
Qed.

Lemma process_new_issue_run issue_id w :
  process_new_issue issue_id w
  = match issues_collection w !! issue_id with
    | None => (Ok false, w)
    | Some d =>
        let issue_data := <["id" := VStr issue_id]> d in
        match coordinates issue_data with
        | Raise _ => (Ok false, w)
        | Ok (lat, long) =>
            match ward_loop lat long (stream (ward_collection w)) with
            | Raise _ => (Ok false, w)
            | Ok None => (Ok false, write issue_id no_coverage_fields d w)
            | Ok (Some ward) =>
                process_resolved issue_id d issue_data ward w
            end
        end
    end.
Proof.
  unfold process_new_issue, try_except, document_get.
  unfold mbind at 1. unfold M_bind at 1.
  destruct (issues_collection w !! issue_id) as [d|] eqn:Hd; [|done].
  cbn zeta. unfold coordinates.
  unfold mbind, M_bind, result_bind, lift.
  destruct (getitem _ "latitude") as [lat_v|]; [|done].
  destruct (getitem _ "longitude") as [long_v|]; [|done].
  destruct (py_float lat_v) as [lat|]; [|done].
  destruct (py_float long_v) as [long|]; [|done].
  rewrite find_ward_for_location_run.
  destruct (ward_loop _ _ _) as [[ward|]|]; [| |done].
  - unfold process_resolved.
    destruct (getitem ward "ward_id") as [ward_id|]; [|done].
    destruct (getitem ward "name") as [ward_name|]; [|done].
    fold (assignment_fields ward_id ward_name).
    rewrite (document_update_Some _ _ d) by done.
    destruct (getitem ward "officer_email") as [officer_email|]; [|done].
    rewrite send_email_notification_run.
    destruct (build_message _ _ _) as [msg|].
    + erewrite document_update_Some; [done|]. apply write_lookup.
    + erewrite document_update_Some; [done|]. apply write_lookup.
  - fold no_coverage_fields.
    by rewrite (document_update_Some _ _ d).
Qed.

(** ** The ward query *)

Lemma stream_empty : stream ∅ = [].
Proof. unfold stream. by rewrite map_to_list_empty. Qed.

Lemma elem_of_stream c k d : (k, d) ∈ stream c ↔ c !! k = Some d.
Proof.
  unfold stream. rewrite merge_sort_Permutation. apply elem_of_map_to_list.
Qed.

Lemma id_le_total : Total id_le.
Proof. intros a b. unfold id_le. apply (total String.le). Qed.

Lemma stream_sorted c : Sorted id_le (stream c).
Proof. apply Sorted_merge_sort, id_le_total. Qed.

Lemma ward_loop_uncovered lat long wards :
  uncovered lat long wards → ward_loop lat long wards = Ok None.
Proof.
  induction 1 as [|ward_doc rest Hhd _ IH]; [done|].
  cbn. by rewrite Hhd.
Qed.

Lemma ward_loop_first lat long pre ward_doc post name :
  uncovered lat long pre →
  covers lat long (to_dict ward_doc) = Ok true →
  to_dict ward_doc !! "name" = Some name →
  ward_loop lat long (pre ++ ward_doc :: post) = Ok (Some (to_dict ward_doc)).
Proof.
  intros Hpre Hin Hname.
  induction Hpre as [|x pre Hx _ IH]; cbn.
  - rewrite Hin. cbn. unfold getitem. by rewrite Hname.
  - by rewrite Hx.
Qed.

(** A ward returned by the loop has a name: the loop reads it. *)
Lemma ward_loop_Some_name lat long wards ward :
  ward_loop lat long wards = Ok (Some ward) → is_Some (ward !! "name").
Proof.
  induction wards as [|ward_doc rest IH]; [done|]. cbn.
  destruct (covers lat long (to_dict ward_doc)) as [[]|]; cbn; [|done..].
  unfold getitem.
  destruct (to_dict ward_doc !! "name") eqn:Hn; cbn; [|done].
  intros [= <-]. by rewrite Hn.
Qed.

(** C7: over an empty ward set, [find_ward_for_location] returns [None]
    for every point; it neither raises nor touches the store. *)
Theorem find_ward_empty_set lat long w :
  ward_collection w = ∅ →
  find_ward_for_location lat long w = (Ok None, w).
Proof.
  intros Hempty. rewrite find_ward_for_location_run, Hempty.
  by rewrite stream_empty.
Qed.

(** C6 (as amended): the lookup is a deterministic, read-only query
    that visits the wards in ascending order of document id.  The first
    ward whose polygon contains the point is returned, whatever follows
    it in that order and on every repeated call, when the tests of the
    wards before it return false and the ward has a [name]; without a
    [name] the lookup raises [KeyError] instead of returning it, and a
    ward whose test raises stops the lookup with that error before any
    later ward is examined. *)
Theorem find_ward_first_match lat long w pre ward_doc post :
  stream (ward_collection w) = pre ++ ward_doc :: post →
  uncovered lat long pre →
  Sorted id_le (stream (ward_collection w))
  ∧ (covers lat long (to_dict ward_doc) = Ok true →
     (∀ name,
        to_dict ward_doc !! "name" = Some name →
        find_ward_for_location lat long w
          = (Ok (Some (to_dict ward_doc)), w)
        ∧ (find_ward_for_location lat long;;
           find_ward_for_location lat long) w
          = (Ok (Some (to_dict ward_doc)), w))
     ∧ (to_dict ward_doc !! "name" = None →
        find_ward_for_location lat long w = (Raise (KeyError "name"), w)))
  ∧ (∀ e,
       covers lat long (to_dict ward_doc) = Raise e →
       find_ward_for_location lat long w = (Raise e, w)).
Proof.
  intros Hstream Hpre.
  split; [apply stream_sorted|]. split; [intros Hin; split|].
  - intros name Hname.
    assert (find_ward_for_location lat long w
            = (Ok (Some (to_dict ward_doc)), w)) as Hrun.
    { rewrite find_ward_for_location_run, Hstream.
      by erewrite ward_loop_first. }
    split; [done|]. unfold mbind, M_bind. by rewrite Hrun.
  - intros Hname. rewrite find_ward_for_location_run, Hstream.
    f_equal. clear Hstream.
    induction Hpre as [|x pre Hx _ IH]; cbn.
    + rewrite Hin. cbn. unfold getitem. by rewrite Hname.
    + by rewrite Hx.
  - intros e He. rewrite find_ward_for_location_run, Hstream.
    f_equal. clear Hstream.
    induction Hpre as [|x pre Hx _ IH]; cbn.
    + by rewrite He.
    + by rewrite Hx.
Qed.

(** ** The orchestrator *)

(** Settles a goal about a key [k] known to be one of an explicit list,
    one key at a time. *)
Ltac each_key H :=
  repeat (apply elem_of_cons in H as [->|H]; [done|]);
  by apply elem_of_nil in H.

Lemma field_write issue_id fields d w k v :
  fields !! k = Some v →
  field (write issue_id fields d w) issue_id k
  = Some (resolve (server_time w) v).
Proof.
  intros Hk. unfold field. rewrite write_lookup. cbn.
  apply lookup_union_Some_l. by rewrite lookup_fmap, Hk.
Qed.

Lemma field_write_old issue_id fields d w k :
  fields !! k = None →
  field (write issue_id fields d w) issue_id k = d !! k.
Proof.
  intros Hk. unfold field. rewrite write_lookup. cbn.
  apply lookup_union_r. by rewrite lookup_fmap, Hk.
Qed.

(** C5 (as amended): when the test of every ward returns false for the
    coordinates of the issue, [process_new_issue] writes
    [ward_assigned = False] and [notification_sent = False] on the issue
    and hands nothing to the transport; when the lookup raises instead
    (a malformed ward record), the call returns [False] and leaves the
    world untouched. *)
Theorem process_no_coverage issue_id w d lat long :
  issues_collection w !! issue_id = Some d →
  coordinates (<["id" := VStr issue_id]> d) = Ok (lat, long) →
  (uncovered lat long (stream (ward_collection w)) →
   ∃ w',
     process_new_issue issue_id w = (Ok false, w')
     ∧ field w' issue_id "ward_assigned" = Some (VBool false)
     ∧ field w' issue_id "notification_sent" = Some (VBool false)
     ∧ trace w' = trace w ++ [EvUpdate issue_id no_coverage_fields]
     ∧ sends (trace w') = sends (trace w))
  ∧ (∀ e,
       ward_loop lat long (stream (ward_collection w)) = Raise e →
       process_new_issue issue_id w = (Ok false, w)).
Proof.
  intros Hd Hxy. split.
  - intros Hno.
    exists (write issue_id no_coverage_fields d w).
    rewrite process_new_issue_run, Hd. cbn zeta. rewrite Hxy.
    rewrite (ward_loop_uncovered _ _ _ Hno).
    split; [done|].
    split; [by apply (field_write _ _ _ _ _ (Value (VBool false)))|].
    split; [by apply (field_write _ _ _ _ _ (Value (VBool false)))|].
    split; [done|].
    cbn. rewrite sends_app. cbn. by rewrite app_nil_r.
  - intros e He. rewrite process_new_issue_run, Hd. cbn zeta.
    by rewrite Hxy, He.
Qed.

(** ** The dispatcher *)

(** C8 (as amended): the dispatcher never raises and never touches the
    store; it opens at most one SMTP session per call, exactly one when
    the payload could be built from the issue and ward fields (its
    outcome is then the returned boolean), and none when a field is
    missing, in which case it returns [False]. *)
Theorem dispatcher_contract officer_email issue_data ward_data w :
  ∃ b w' sent,
    send_email_notification officer_email issue_data ward_data w = (Ok b, w')
    ∧ ward_collection w' = ward_collection w
    ∧ issues_collection w' = issues_collection w
    ∧ trace w' = trace w ++ (EvSend <$> sent)
    ∧ length sent ≤ 1
    ∧ (∀ msg, build_message officer_email issue_data ward_data = Ok msg →
         sent = [msg] ∧ b = smtp (trace w) msg)
    ∧ (∀ e, build_message officer_email issue_data ward_data = Raise e →
         sent = [] ∧ b = false).
Proof.
  rewrite send_email_notification_run.
  destruct (build_message _ _ _) as [msg|e].
  - exists (smtp (trace w) msg), (attempted msg w), [msg].
    split_and!; [done..|cbn; lia| |done].
    by intros ? [= <-].
  - exists false, w, [].
    split_and!; [done..|by rewrite app_nil_r|cbn; lia|done|done].
Qed.

(** ** Ward assignment and notification status *)

Lemma assignment_lookup t ward_id ward_name d :
  ((resolve t <$> assignment_fields ward_id ward_name) ∪ d) !! "ward_id"
    = Some ward_id
  ∧ ((resolve t <$> assignment_fields ward_id ward_name) ∪ d) !! "ward_name"
    = Some ward_name
  ∧ ((resolve t <$> assignment_fields ward_id ward_name) ∪ d)
      !! "ward_assigned" = Some (VBool true).
Proof.
  repeat split; apply lookup_union_Some_l; by rewrite lookup_fmap.
Qed.

Lemma field_status_write issue_id email_sent d w :
  field (write issue_id (status_fields email_sent) d w) issue_id
    "notification_sent" = Some (VBool email_sent)
  ∧ (∀ k, k ∈ ["ward_id"; "ward_name"; "ward_assigned"] →
       field (write issue_id (status_fields email_sent) d w) issue_id k
       = d !! k).
Proof.
  split.
  - by apply (field_write _ _ _ _ _ (Value (VBool email_sent))).
  - intros k Hk. apply field_write_old.
    each_key Hk.
Qed.

(** C4 (as amended): when a ward is resolved and its record carries a
    [ward_id], the first thing the invocation does to the outside world
    is the single update that writes [ward_id], [ward_name] and
    [ward_assigned = True] together; every SMTP session of the
    invocation comes after it; and whatever happens to the notification,
    the issue ends with [ward_assigned = True] (and with
    [notification_sent] equal to the outcome of the session when one was
    attempted).  When the resolved ward has no [ward_id], the call
    returns [False] and leaves the world untouched. *)
Theorem assignment_precedes_notification issue_id w d lat long ward :
  issues_collection w !! issue_id = Some d →
  coordinates (<["id" := VStr issue_id]> d) = Ok (lat, long) →
  ward_loop lat long (stream (ward_collection w)) = Ok (Some ward) →
  (∀ ward_id,
     ward !! "ward_id" = Some ward_id →
     ∃ ward_name b w' rest,
       ward !! "name" = Some ward_name
       ∧ process_new_issue issue_id w = (Ok b, w')
       ∧ trace w'
         = trace w
           ++ EvUpdate issue_id (assignment_fields ward_id ward_name) :: rest
       ∧ length (sends rest) ≤ 1
       ∧ field w' issue_id "ward_id" = Some ward_id
       ∧ field w' issue_id "ward_name" = Some ward_name
       ∧ field w' issue_id "ward_assigned" = Some (VBool true)
       ∧ (∀ msg, EvSend msg ∈ rest →
            field w' issue_id "notification_sent"
            = Some (VBool
                (smtp (trace w
                       ++ [EvUpdate issue_id
                             (assignment_fields ward_id ward_name)]) msg))))
  ∧ (ward !! "ward_id" = None →
     process_new_issue issue_id w = (Ok false, w)).
Proof.
  intros Hd Hxy Hward. split; [intros ward_id Hid|intros Hid].
  2: { rewrite process_new_issue_run, Hd. cbn zeta. rewrite Hxy, Hward.
       unfold process_resolved, getitem. by rewrite Hid. }
  destruct (ward_loop_Some_name _ _ _ _ Hward) as [ward_name Hname].
  exists ward_name.
  rewrite process_new_issue_run, Hd. cbn zeta. rewrite Hxy, Hward.
  unfold process_resolved, getitem at 1 2. rewrite Hid, Hname. cbn zeta.
  pose proof (assignment_lookup (server_time w) ward_id ward_name d)
    as (Hwid & Hwname & Hassigned).
  set (fields := assignment_fields ward_id ward_name) in *.
  set (d1 := (resolve (server_time w) <$> fields) ∪ d) in *.
  set (w1 := write issue_id fields d w).
  destruct (getitem ward "officer_email") as [officer_email|].
  - destruct (build_message _ _ _) as [msg|].
    + set (email_sent := smtp (trace w1) msg).
      pose proof (field_status_write issue_id email_sent d1
                    (attempted msg w1)) as [Hsent Hkept].
      exists true, (write issue_id (status_fields email_sent) d1
                      (attempted msg w1)),
        [EvSend msg; EvUpdate issue_id (status_fields email_sent)].
      split_and!; [done|done| |cbn; lia|..].
      * cbn. by rewrite <-!app_assoc.
      * rewrite Hkept, Hwid; [done|set_solver].
      * rewrite Hkept, Hwname; [done|set_solver].
      * rewrite Hkept, Hassigned; [done|set_solver].
      * intros msg' Hin. rewrite Hsent.
        apply elem_of_cons in Hin as [[= ->]|Hin]; [done|].
        apply elem_of_cons in Hin as [?|Hin]; [done|].
        by apply elem_of_nil in Hin.
    + pose proof (field_status_write issue_id false d1 w1) as [Hsent Hkept].
      exists true, (write issue_id (status_fields false) d1 w1),
        [EvUpdate issue_id (status_fields false)].
      split_and!; [done|done| |cbn; lia|..].
      * cbn. by rewrite <-!app_assoc.
      * rewrite Hkept, Hwid; [done|set_solver].
      * rewrite Hkept, Hwname; [done|set_solver].
      * rewrite Hkept, Hassigned; [done|set_solver].
      * intros msg' Hin.
        apply elem_of_cons in Hin as [?|Hin]; [done|].
        by apply elem_of_nil in Hin.
  - exists false, w1, [].
    split_and!; [done|done|done|cbn; lia|..].
    + unfold field, w1. by rewrite write_lookup.
    + unfold field, w1. by rewrite write_lookup.
    + unfold field, w1. by rewrite write_lookup.
    + intros msg' Hin. by apply elem_of_nil in Hin.
Qed.

Lemma process_notified_run issue_id w d lat long ward ward_id ward_name
    officer_email msg :
  issues_collection w !! issue_id = Some d →
  coordinates (<["id" := VStr issue_id]> d) = Ok (lat, long) →
  ward_loop lat long (stream (ward_collection w)) = Ok (Some ward) →
  ward !! "ward_id" = Some ward_id →
  ward !! "name" = Some ward_name →
  ward !! "officer_email" = Some officer_email →
  build_message officer_email (<["id" := VStr issue_id]> d) ward = Ok msg →
  process_new_issue issue_id w
  = (Ok true,
     write issue_id
       (status_fields
          (smtp (trace w
                 ++ [EvUpdate issue_id (assignment_fields ward_id ward_name)])
                msg))
       ((resolve (server_time w) <$> assignment_fields ward_id ward_name) ∪ d)
       (attempted msg
          (write issue_id (assignment_fields ward_id ward_name) d w))).
Proof.
  intros Hd Hxy Hward Hid Hname Hofficer Hmsg.
  rewrite process_new_issue_run, Hd. cbn zeta. rewrite Hxy, Hward.
  unfold process_resolved, getitem. rewrite Hid, Hname, Hofficer.
  cbn zeta. by rewrite Hmsg.
Qed.



(** ** Running the pipeline again *)

Lemma getitem_after_update (f : updates) t d v k :
  f !! k = None →
  getitem (<["id" := v]> ((resolve t <$> f) ∪ d)) k
  = getitem (<["id" := v]> d) k.
Proof.
  intros Hk. unfold getitem.
  destruct (decide (k = "id")) as [->|Hne].
  - by rewrite !lookup_insert_eq.
  - rewrite !lookup_insert_ne by done.
    rewrite lookup_union_r; [done|]. by rewrite lookup_fmap, Hk.
Qed.

Lemma coordinates_after_update (f : updates) t d v :
  (∀ k, k ∈ read_keys → f !! k = None) →
  coordinates (<["id" := v]> ((resolve t <$> f) ∪ d))
  = coordinates (<["id" := v]> d).
Proof.
  intros Hf. unfold coordinates.
  rewrite !getitem_after_update; [done|apply Hf; set_solver..].
Qed.

Lemma build_message_after_update (f : updates) t d v officer_email ward :
  (∀ k, k ∈ read_keys → f !! k = None) →
  build_message officer_email (<["id" := v]> ((resolve t <$> f) ∪ d)) ward
  = build_message officer_email (<["id" := v]> d) ward.
Proof.
  intros Hf. unfold build_message.
  rewrite !getitem_after_update; [done|apply Hf; set_solver..].
Qed.

Lemma assignment_fields_read ward_id ward_name k :
  k ∈ read_keys → assignment_fields ward_id ward_name !! k = None.
Proof.
  intros Hk. each_key Hk.
Qed.

Lemma status_fields_read email_sent k :
  k ∈ read_keys → status_fields email_sent !! k = None.
Proof.
  intros Hk. each_key Hk.
Qed.

Lemma no_coverage_fields_idemp t1 t2 d :
  (resolve t2 <$> no_coverage_fields)
    ∪ ((resolve t1 <$> no_coverage_fields) ∪ d)
  = (resolve t1 <$> no_coverage_fields) ∪ d.
Proof.
  rewrite (assoc_L (∪)). by f_equal.
Qed.

(** C1 (as amended): [process_new_issue] keeps no record of what it has
    already done and consults none of the stored flags; every call runs
    the pipeline again.  For an issue that no ward covers, a second call
    leaves the issue collection as the first one left it and opens no
    SMTP session.  For an issue whose ward resolves and whose payload can
    be built, the first call leaves [ward_assigned = True] and a
    notification status on the record, and the second call opens one
    more SMTP session with the same message. *)
Theorem reprocessing issue_id w d lat long :
  issues_collection w !! issue_id = Some d →
  coordinates (<["id" := VStr issue_id]> d) = Ok (lat, long) →
  (uncovered lat long (stream (ward_collection w)) →
     ∃ w1 w2,
       process_new_issue issue_id w = (Ok false, w1)
       ∧ process_new_issue issue_id w1 = (Ok false, w2)
       ∧ issues_collection w2 = issues_collection w1
       ∧ sends (trace w2) = sends (trace w))
  ∧ (∀ ward ward_id officer_email msg,
       ward_loop lat long (stream (ward_collection w)) = Ok (Some ward) →
       ward !! "ward_id" = Some ward_id →
       ward !! "officer_email" = Some officer_email →
       build_message officer_email (<["id" := VStr issue_id]> d) ward
         = Ok msg →
       ∃ w1 w2 email_sent,
         process_new_issue issue_id w = (Ok true, w1)
         ∧ field w1 issue_id "ward_assigned" = Some (VBool true)
         ∧ field w1 issue_id "notification_sent" = Some (VBool email_sent)
         ∧ sends (trace w1) = sends (trace w) ++ [msg]
         ∧ process_new_issue issue_id w1 = (Ok true, w2)
         ∧ sends (trace w2) = sends (trace w) ++ [msg; msg]).
Proof.
  intros Hd Hxy. split.
  - intros Hno.
    set (w1 := write issue_id no_coverage_fields d w).
    set (d1 := (resolve (server_time w) <$> no_coverage_fields) ∪ d).
    exists w1, (write issue_id no_coverage_fields d1 w1).
    assert (process_new_issue issue_id w = (Ok false, w1)) as Hrun1.
    { rewrite process_new_issue_run, Hd. cbn zeta. rewrite Hxy.
      by rewrite (ward_loop_uncovered _ _ _ Hno). }
    assert (process_new_issue issue_id w1
            = (Ok false, write issue_id no_coverage_fields d1 w1)) as Hrun2.
    { rewrite process_new_issue_run. unfold w1 at 1. rewrite write_lookup.
      cbn zeta. fold d1. unfold d1 at 1.
      rewrite coordinates_after_update, Hxy.
      - replace (ward_collection w1) with (ward_collection w) by done.
        by rewrite (ward_loop_uncovered _ _ _ Hno).
      - intros k Hk.
        each_key Hk. }
    split_and!; [done|done| |].
    + cbn. rewrite insert_insert_eq. f_equal.
      apply no_coverage_fields_idemp.
    + cbn. rewrite !sends_app. cbn. by rewrite !app_nil_r.
  - intros ward ward_id officer_email msg Hward Hid Hofficer Hmsg.
    destruct (ward_loop_Some_name _ _ _ _ Hward) as [ward_name Hname].
    pose proof (process_notified_run _ _ _ _ _ _ _ _ _ _
                  Hd Hxy Hward Hid Hname Hofficer Hmsg) as Hrun1.
    set (fields := assignment_fields ward_id ward_name) in *.
    set (d1 := (resolve (server_time w) <$> fields) ∪ d) in *.
    set (w1 := write issue_id fields d w) in *.
    set (sent1 := smtp (trace w ++ [EvUpdate issue_id fields]) msg) in *.
    set (w2 := write issue_id (status_fields sent1) d1 (attempted msg w1))
      in *.
    set (d2 := (resolve (server_time (attempted msg w1))
                  <$> status_fields sent1) ∪ d1).
    assert (issues_collection w2 !! issue_id = Some d2) as Hd2
      by apply write_lookup.
    assert (coordinates (<["id" := VStr issue_id]> d2) = Ok (lat, long))
      as Hxy2.
    { unfold d2, d1. rewrite !coordinates_after_update; [done|..].
      - apply assignment_fields_read.
      - apply status_fields_read. }
    assert (build_message officer_email (<["id" := VStr issue_id]> d2) ward
            = Ok msg) as Hmsg2.
    { unfold d2, d1. rewrite !build_message_after_update; [done|..].
      - apply assignment_fields_read.
      - apply status_fields_read. }
    assert (ward_loop lat long (stream (ward_collection w2)) = Ok (Some ward))
      as Hward2 by done.
    pose proof (process_notified_run _ _ _ _ _ _ _ _ _ _
                  Hd2 Hxy2 Hward2 Hid Hname Hofficer Hmsg2) as Hrun2.
    pose proof (assignment_lookup (server_time w) ward_id ward_name d)
      as (_ & _ & Hassigned).
    pose proof (field_status_write issue_id sent1 d1 (attempted msg w1))
      as [Hsent Hkept].
    eexists w2, _, sent1.
    split_and!; [done| |done| |exact Hrun2|].
    + fold w2 in Hkept. rewrite Hkept; [done|set_solver].
    + cbn. rewrite !sends_app. cbn. by rewrite !app_nil_r.
    + cbn. rewrite !sends_app. cbn. rewrite !app_nil_r.
      by rewrite <-app_assoc.
Qed.

(** ** The sample database *)

Lemma stream_seeded_wards :
  stream seeded_wards = [("ward001", central_ward); ("ward002", north_ward)].
Proof. vm_compute. reflexivity. Qed.

Lemma sample_issue_coordinates issue_id created :
  coordinates (<["id" := VStr issue_id]> (sample_issue created))
  = Ok (129756 # 10000, 775996 # 10000).
Proof. reflexivity. Qed.

Lemma sample_issue_ward :
  ward_loop (129756 # 10000) (775996 # 10000) (stream seeded_wards)
  = Ok (Some (to_dict ("ward001", central_ward))).
Proof. rewrite stream_seeded_wards. vm_compute. reflexivity. Qed.

(** C9: an issue at (12.9756, 77.5996) run against the two sample wards
    is assigned to Central Ward: the record receives
    [ward_id = "ward001"], [ward_name = "Central Ward"] and
    [ward_assigned = True], one message goes to the officer of that ward,
    the call returns [True], and [notification_sent] records whether the
    SMTP session succeeded; [ward_assigned] is [True] either way. *)
Theorem central_ward_end_to_end issue_id created w :
  ward_collection w = seeded_wards →
  issues_collection w !! issue_id = Some (sample_issue created) →
  ∃ w' msg,
    process_new_issue issue_id w = (Ok true, w')
    ∧ field w' issue_id "ward_id" = Some (VStr "ward001")
    ∧ field w' issue_id "ward_name" = Some (VStr "Central Ward")
    ∧ field w' issue_id "ward_assigned" = Some (VBool true)
    ∧ sends (trace w') = sends (trace w) ++ [msg]
    ∧ msg_to msg = VStr "aryaniaf2608@gmail.com"
    ∧ body_ward_id msg = VStr "ward001"
    ∧ body_issue_id msg = VStr issue_id
    ∧ field w' issue_id "notification_sent"
      = Some (VBool
          (smtp (trace w
                 ++ [EvUpdate issue_id
                       (assignment_fields (VStr "ward001")
                          (VStr "Central Ward"))]) msg)).
Proof.
  intros Hwards Hd.
  pose proof sample_issue_ward as Hward. rewrite <-Hwards in Hward.
  eassert (build_message (VStr "aryaniaf2608@gmail.com")
             (<["id" := VStr issue_id]> (sample_issue created))
             (to_dict ("ward001", central_ward)) = Ok _) as Hmsg
    by reflexivity.
  pose proof (process_notified_run issue_id w _ _ _ _
                (VStr "ward001") (VStr "Central Ward") _ _
                Hd (sample_issue_coordinates issue_id created) Hward
                eq_refl eq_refl eq_refl Hmsg) as Hrun.
  pose proof (assignment_lookup (server_time w) (VStr "ward001")
                (VStr "Central Ward") (sample_issue created))
    as (Hwid & Hwname & Hassigned).
  edestruct field_status_write as [Hsent Hkept].
  eexists _, _. split; [exact Hrun|].
  split_and!.
  - rewrite Hkept, Hwid; [done|set_solver].
  - rewrite Hkept, Hwname; [done|set_solver].
  - rewrite Hkept, Hassigned; [done|set_solver].
  - cbn. rewrite !sends_app. cbn. by rewrite !app_nil_r.
  - done.
  - done.
  - done.
  - apply Hsent.
Qed.

(** ** Polygons given as lists of vertices *)

Lemma mapM_lat_lng vs :
  mapM lat_lng (vertex_of <$> vs)
  = Ok ((λ p : Geos.Coordinate, (VNum p.1, VNum p.2)) <$> vs).
Proof.
  induction vs as [|[x y] vs IH]; [done|].
  rewrite !fmap_cons. cbn [mapM]. by rewrite IH.
Qed.

Lemma mapM_float_coords vs :
  mapM float_coords ((λ p : Geos.Coordinate, (VNum p.1, VNum p.2)) <$> vs)
  = Ok vs.
Proof.
  induction vs as [|[x y] vs IH]; [done|].
  rewrite !fmap_cons. cbn [mapM]. by rewrite IH.
Qed.

Lemma point_in_polygon_vertices lat long vs :
  point_in_polygon lat long (VList (vertex_of <$> vs))
  = (p ← LinearRing vs; Ok (contains p (lat, long))).
Proof.
  unfold point_in_polygon, Polygon. cbn [iterate mbind result_bind].
  rewrite mapM_lat_lng. cbn [mbind result_bind].
  by rewrite mapM_float_coords.
Qed.

(** C2 (as amended): a boundary of one or two vertices makes the
    containment test raise [ValueError], while a boundary with no vertex
    at all silently tests as [False].  [find_ward_for_location] does not
    catch the error: when such a ward comes before any match in the
    iteration order the whole lookup is aborted with it, and
    [process_new_issue] then returns [False] and writes nothing. *)
Theorem invalid_boundary_aborts_lookup lat long w pre ward_doc post vs :
  stream (ward_collection w) = pre ++ ward_doc :: post →
  uncovered lat long pre →
  ward_doc.2 !! "boundaries" = Some (VList (vertex_of <$> vs)) →
  0 < length vs < 3 →
  covers lat long (to_dict ward_doc) = Raise ValueError
  ∧ find_ward_for_location lat long w = (Raise ValueError, w)
  ∧ (∀ issue_id d,
       issues_collection w !! issue_id = Some d →
       coordinates (<["id" := VStr issue_id]> d) = Ok (lat, long) →
       process_new_issue issue_id w = (Ok false, w))
  ∧ point_in_polygon lat long (VList []) = Ok false.
Proof.
  intros Hstream Hpre Hb Hlen.
  assert (covers lat long (to_dict ward_doc) = Raise ValueError) as Hcov.
  { unfold covers, to_dict. rewrite lookup_insert_ne by done. rewrite Hb.
    rewrite point_in_polygon_vertices.
    destruct vs as [|? [|? [|? ?]]]; cbn in Hlen; try lia; done. }
  assert (ward_loop lat long (stream (ward_collection w)) = Raise ValueError)
    as Hloop.
  { rewrite Hstream. clear Hstream.
    induction Hpre as [|x pre Hx _ IH]; cbn.
    - by rewrite Hcov.
    - by rewrite Hx. }
  split_and!; [done| | |done].
  - by rewrite find_ward_for_location_run, Hloop.
  - intros issue_id d Hd Hxy.
    rewrite process_new_issue_run, Hd. cbn zeta. by rewrite Hxy, Hloop.
Qed.

(** ** Points on the boundary *)

Lemma Qltb_spec a b : reflect (a < b)%Q (Geos.Qltb a b).
Proof.
  unfold Geos.Qltb. destruct (Qle_bool b a) eqn:E; constructor.
  - apply Qle_bool_iff in E. by apply Qle_not_lt.
  - apply Qnot_le_lt. intros H. apply Qle_bool_iff in H. congruence.
Qed.

Lemma Qleb_spec a b : reflect (a <= b)%Q (Qle_bool a b).
Proof.
  destruct (Qle_bool a b) eqn:E; constructor.
  - by apply Qle_bool_iff.
  - intros H. apply Qle_bool_iff in H. congruence.
Qed.

Lemma Qeqb_spec a b : reflect (a == b)%Q (Qeq_bool a b).
Proof.
  destruct (Qeq_bool a b) eqn:E; constructor.
  - by apply Qeq_bool_iff.
  - by apply Qeq_bool_neq.
Qed.

Lemma Qnum_zero q : (q == 0)%Q → Qnum q = 0%Z.
Proof. unfold Qeq. cbn. lia. Qed.

Lemma same_point_dec p q : {same_point p q} + {¬ same_point p q}.
Proof.
  unfold same_point.
  destruct (Qeq_dec p.1 q.1); [|right; tauto].
  destruct (Qeq_dec p.2 q.2); [left|right]; tauto.
Qed.

Lemma orientationIndex_collinear a b pt :
  ((b.1 - a.1) * (pt.2 - a.2) == (b.2 - a.2) * (pt.1 - a.1))%Q →
  Geos.orientationIndex a b pt = 0%Z.
Proof.
  destruct a as [ax ay], b as [bx by'], pt as [x y]. cbn [fst snd].
  intros Hcol. unfold Geos.orientationIndex. cbn [fst snd].
  rewrite Qnum_zero; [done|]. lra.
Qed.

(** The second endpoint of a segment is always reported. *)
Lemma detects_endpoint pt a b : same_point pt b → detects pt a b.
Proof.
  intros [Hx Hy] c. unfold Geos.countSegment.
  destruct (Qltb_spec b.1 pt.1) as [Hlt|_]; [lra|].
  rewrite andb_false_r.
  destruct (Qeqb_spec pt.1 b.1); [|done].
  by destruct (Qeqb_spec pt.2 b.2).
Qed.

(** So is any point of the segment other than its first endpoint. *)
Lemma detects_on_segment pt a b :
  lies_on_segment pt a b → ¬ same_point pt a → detects pt a b.
Proof.
  destruct (same_point_dec pt b) as [Hb|Hb]; [intros; by apply detects_endpoint|].
  unfold lies_on_segment, same_point in *.
  destruct a as [ax ay], b as [bx by'], pt as [x y]. cbn [fst snd] in *.
  intros (Hcol & Hx & Hy) Ha c. unfold Geos.countSegment. cbn [fst snd].
  assert (Geos.Qltb ax x && Geos.Qltb bx x = false) as ->.
  { destruct (Qltb_spec ax x), (Qltb_spec bx x); try done.
    exfalso. destruct Hx; lra. }
  assert (Qeq_bool x bx && Qeq_bool y by' = false) as ->.
  { destruct (Qeqb_spec x bx), (Qeqb_spec y by'); try done.
    exfalso. tauto. }
  destruct (Qeqb_spec ay y) as [Hay|Hay], (Qeqb_spec by' y) as [Hby|Hby];
    cbn [andb].
  - assert (Qle_bool (if Geos.Qltb bx ax then bx else ax) x
            && Qle_bool x (if Geos.Qltb bx ax then ax else bx) = true) as ->.
    { destruct (Qltb_spec bx ax).
      all: destruct (Qleb_spec bx x), (Qleb_spec x ax),
             (Qleb_spec ax x), (Qleb_spec x bx); try done.
      all: exfalso; destruct Hx; lra. }
    done.
  - exfalso. apply Ha. split; [|lra].
    assert ((by' - ay) * (x - ax) == 0)%Q as Hz by nra.
    apply Qmult_integral in Hz as [Hz|Hz]; lra.
  - exfalso. apply Hb. split; [|lra].
    assert ((by' - ay) * (bx - x) == 0)%Q as Hz by nra.
    apply Qmult_integral in Hz as [Hz|Hz]; lra.
  - assert ((Geos.Qltb y ay && Qle_bool by' y)
            || (Geos.Qltb y by' && Qle_bool ay y) = true) as ->.
    { destruct (Qltb_spec y ay), (Qleb_spec by' y),
        (Qltb_spec y by'), (Qleb_spec ay y); try done.
      all: exfalso; destruct Hy; lra. }
    rewrite (orientationIndex_collinear (ax, ay) (bx, by') (x, y)); done.
Qed.

Lemma countRing_flag pt ring a b c :
  (a, b) ∈ segments ring →
  detects pt a b →
  Geos.isPointOnSegment (Geos.countRing pt ring c) = true.
Proof.
  intros Hin Hdet. revert c Hin.
  induction ring as [|p1 ring IH]; intros c Hin.
  { by apply elem_of_nil in Hin. }
  destruct ring as [|p2 rest].
  { by apply elem_of_nil in Hin. }
  cbn [segments] in Hin. cbn [Geos.countRing].
  destruct (Geos.isPointOnSegment (Geos.countSegment pt p1 p2 c)) eqn:E;
    [done|].
  apply elem_of_cons in Hin as [[= -> ->]|Hin].
  - by rewrite Hdet in E.
  - by apply IH.
Qed.

Lemma second_endpoint h l x :
  x ∈ l → ∃ a, (a, x) ∈ segments (h :: l).
Proof.
  revert h. induction l as [|y l IH]; intros h Hx.
  { by apply elem_of_nil in Hx. }
  cbn [segments]. apply elem_of_cons in Hx as [->|Hx].
  - exists h. left.
  - destruct (IH y Hx) as [a Ha]. exists a. by right.
Qed.

Lemma first_endpoint_in ring a b : (a, b) ∈ segments ring → a ∈ ring.
Proof.
  induction ring as [|p1 ring IH]; intros Hin.
  { by apply elem_of_nil in Hin. }
  destruct ring as [|p2 rest].
  { by apply elem_of_nil in Hin. }
  cbn [segments] in Hin.
  apply elem_of_cons in Hin as [[= -> ->]|Hin]; [left|right; by apply IH].
Qed.

Lemma last_elem_of (l : list Geos.Coordinate) d : l ≠ [] → List.last l d ∈ l.
Proof.
  induction l as [|x l IH]; [done|]. intros _.
  destruct l as [|y l]; [left|]. right. by apply IH.
Qed.

Lemma segments_snoc_elem l x a b :
  (a, b) ∈ segments (l ++ [x]) →
  (a, b) ∈ segments l ∨ (l ≠ [] ∧ a = List.last l x ∧ b = x).
Proof.
  induction l as [|p1 l IH]; intros Hin.
  { by apply elem_of_nil in Hin. }
  destruct l as [|p2 l].
  - cbn in Hin. apply elem_of_cons in Hin as [[= -> ->]|Hin]; [by right|].
    by apply elem_of_nil in Hin.
  - cbn [app segments] in Hin.
    apply elem_of_cons in Hin as [[= -> ->]|Hin]; [left; left|].
    destruct (IH Hin) as [Hl|(_ & -> & ->)]; [left; by right|by right].
Qed.

(** Every vertex of a closed ring is reported. *)
Lemma vertex_flag pt ring x c :
  ring_closed ring → x ∈ ring → same_point pt x →
  Geos.isPointOnSegment (Geos.countRing pt ring c) = true.
Proof.
  intros (h & l & -> & Hl & Hlast) Hx Hpt.
  assert (∃ y, y ∈ l ∧ same_point pt y) as (y & Hy & Hpty).
  { apply elem_of_cons in Hx as [->|Hx]; [|by exists x].
    exists (List.last l h). split; [by apply last_elem_of|].
    destruct Hpt, Hlast. split; by etrans. }
  destruct (second_endpoint h l y Hy) as [a Ha].
  eapply countRing_flag; [done|]. by apply detects_endpoint.
Qed.

(** Every point of a segment of a closed ring is reported. *)
Lemma edge_flag pt ring a b c :
  ring_closed ring → (a, b) ∈ segments ring → lies_on_segment pt a b →
  Geos.isPointOnSegment (Geos.countRing pt ring c) = true.
Proof.
  intros Hclosed Hin Hon.
  destruct (same_point_dec pt a) as [Ha|Ha].
  - eapply vertex_flag; [done| |done]. by eapply first_endpoint_in.
  - eapply countRing_flag; [done|]. by apply detects_on_segment.
Qed.

Lemma contains_flag ring pt :
  Geos.isPointOnSegment (Geos.countRing pt ring Geos.rcc_init) = true →
  contains (POLYGON ring) pt = false.
Proof.
  intros H. unfold contains, Geos.locatePointInRing, Geos.getLocation.
  by rewrite H.
Qed.

(** C10: a point lying on an edge or a vertex of a polygon of three or
    more vertices is not contained in it: [point_in_polygon] returns
    [False]. *)
Theorem boundary_point_not_contained lat long vs :
  3 ≤ length vs →
  on_boundary (lat, long) vs →
  point_in_polygon lat long (VList (vertex_of <$> vs)) = Ok false.
Proof.
  intros Hlen (a & b & Hedge & Hon).
  rewrite point_in_polygon_vertices.
  destruct vs as [|v0 [|v1 [|v2 rest]]]; cbn in Hlen; try lia.
  unfold edges in Hedge. cbn [take] in Hedge.
  set (vs := v0 :: v1 :: v2 :: rest) in *.
  assert (ring_closed (vs ++ [v0])) as Hopen.
  { exists v0, (v1 :: v2 :: rest ++ [v0]). split; [done|]. split; [done|].
    change (v1 :: v2 :: rest ++ [v0]) with ((v1 :: v2 :: rest) ++ [v0]).
    rewrite last_last. by split. }
  destruct rest as [|v3 rest].
  { cbn [LinearRing vs mbind result_bind]. f_equal.
    apply contains_flag. by eapply (edge_flag _ (vs ++ [v0])). }
  assert (LinearRing vs
          = if Geos.equals2D v0 (List.last vs v0) then Ok (POLYGON vs)
            else Ok (POLYGON (vs ++ [v0]))) as -> by done.
  destruct (Geos.equals2D v0 (List.last vs v0)) eqn:E;
    cbn [mbind result_bind]; f_equal; apply contains_flag.
  - assert (ring_closed vs) as Hclosed.
    { exists v0, (v1 :: v2 :: v3 :: rest). split; [done|]. split; [done|].
      unfold Geos.equals2D in E. apply andb_true_iff in E as [E1 E2].
      apply Qeq_bool_iff in E1, E2. by split. }
    apply segments_snoc_elem in Hedge as [Hedge|(_ & -> & ->)].
    + by eapply edge_flag.
    + eapply (vertex_flag _ _ v0); [done|left|].
      unfold Geos.equals2D in E. apply andb_true_iff in E as [E1 E2].
      apply Qeq_bool_iff in E1, E2.
      destruct Hon as (_ & Hx & Hy). cbn [fst snd] in Hx, Hy.
      split; cbn [fst snd]; [destruct Hx|destruct Hy]; lra.
  - by eapply (edge_flag _ (vs ++ [v0])).
Qed.

(** * Further properties *)

(** ** Rectangular wards *)

Lemma Zsgn_Qnum_pos q : (0 < q)%Q → Z.sgn (Qnum q) = 1%Z.
Proof. unfold Qlt. cbn. intros H. apply Z.sgn_pos. lia. Qed.

Lemma Zsgn_Qnum_neg q : (q < 0)%Q → Z.sgn (Qnum q) = (-1)%Z.
Proof. unfold Qlt. cbn. intros H. apply Z.sgn_neg. lia. Qed.

Ltac q_decide :=
  repeat match goal with
  | |- context [Geos.Qltb ?a ?b] =>
      destruct (Qltb_spec a b); try (exfalso; lra)
  | |- context [Qle_bool ?a ?b] =>
      destruct (Qleb_spec a b); try (exfalso; lra)
  | |- context [Qeq_bool ?a ?b] =>
      destruct (Qeqb_spec a b); try (exfalso; lra)
  end.

(** A segment of constant y leaves the counter alone unless the point is
    on it. *)
Lemma countSegment_level x y xa xb y0 c :
  (¬ y == y0 ∨ (x < xa ∧ x < xb) ∨ (xa < x ∧ xb < x))%Q →
  Geos.countSegment (x, y) (xa, y0) (xb, y0) c = c.
Proof.
  intros H. unfold Geos.countSegment. cbn [fst snd].
  q_decide; cbn [andb orb]; q_decide; try done; exfalso; lra.
Qed.

(** A segment of constant x, walked towards larger y. *)
Lemma countSegment_up x y x1 ya yb c :
  (ya < yb)%Q →
  ((x1 < x ∨ y < ya ∨ yb < y ∨ (x < x1 ∧ y == yb))%Q →
     Geos.countSegment (x, y) (x1, ya) (x1, yb) c = c)
  ∧ ((x < x1 ∧ ya <= y ∧ y < yb)%Q →
     Geos.countSegment (x, y) (x1, ya) (x1, yb) c = Geos.crossed c).
Proof.
  intros Hy. split; intros H; unfold Geos.countSegment; cbn [fst snd].
  - q_decide; cbn [andb orb]; q_decide; try done; exfalso; lra.
  - assert (Geos.orientationIndex (x1, ya) (x1, yb) (x, y) = 1%Z) as ->.
    { unfold Geos.orientationIndex. cbn [fst snd].
      apply Zsgn_Qnum_pos. nra. }
    q_decide; cbn [andb orb]; q_decide; try done; exfalso; lra.
Qed.

(** A segment of constant x, walked towards smaller y. *)
Lemma countSegment_down x y x0 ya yb c :
  (yb < ya)%Q →
  ((x0 < x ∨ y < yb ∨ ya <= y)%Q →
     Geos.countSegment (x, y) (x0, ya) (x0, yb) c = c)
  ∧ ((x < x0 ∧ yb <= y ∧ y < ya)%Q →
     Geos.countSegment (x, y) (x0, ya) (x0, yb) c = Geos.crossed c).
Proof.
  intros Hy. split; intros H; unfold Geos.countSegment; cbn [fst snd].
  - q_decide; cbn [andb orb]; q_decide; try done; exfalso; lra.
  - assert (Geos.orientationIndex (x0, ya) (x0, yb) (x, y) = (-1)%Z) as ->.
    { unfold Geos.orientationIndex. cbn [fst snd].
      apply Zsgn_Qnum_neg. nra. }
    q_decide; cbn [andb orb]; q_decide; try done; exfalso; lra.
Qed.

Lemma rectangle_ring x0 y0 x1 y1 :
  (y0 < y1)%Q →
  LinearRing (rectangle x0 y0 x1 y1)
  = Ok (POLYGON (rectangle x0 y0 x1 y1 ++ [(x0, y0)])).
Proof.
  intros Hy. unfold rectangle, LinearRing, Geos.equals2D.
  cbn [List.last fst snd].
  destruct (Qeqb_spec y0 y1); [lra|]. by rewrite andb_false_r.
Qed.

Lemma rectangle_ring_closed x0 y0 x1 y1 :
  ring_closed (rectangle x0 y0 x1 y1 ++ [(x0, y0)]).
Proof.
  exists (x0, y0), [(x1, y0); (x1, y1); (x0, y1); (x0, y0)].
  split; [done|]. split; [done|]. by split.
Qed.

Lemma rectangle_rim x0 y0 x1 y1 x y :
  (x0 <= x ∧ x <= x1 ∧ y0 <= y ∧ y <= y1)%Q →
  (x == x0 ∨ x == x1 ∨ y == y0 ∨ y == y1)%Q →
  on_boundary (x, y) (rectangle x0 y0 x1 y1).
Proof.
  intros Hbox Hrim. unfold on_boundary, edges, rectangle.
  cbn [take app segments].
  destruct Hrim as [H|[H|[H|H]]].
  - exists (x0, y1), (x0, y0). split; [do 3 right; left|].
    unfold lies_on_segment. cbn [fst snd]. split_and!; [nra|lra..].
  - exists (x1, y0), (x1, y1). split; [right; left|].
    unfold lies_on_segment. cbn [fst snd]. split_and!; [nra|lra..].
  - exists (x0, y0), (x1, y0). split; [left|].
    unfold lies_on_segment. cbn [fst snd]. split_and!; [nra|lra..].
  - exists (x1, y1), (x0, y1). split; [do 2 right; left|].
    unfold lies_on_segment. cbn [fst snd]. split_and!; [nra|lra..].
Qed.

(** The location of any point against a rectangle. *)
Lemma rectangle_locate x0 y0 x1 y1 x y :
  (x0 < x1)%Q → (y0 < y1)%Q →
  contains (POLYGON (rectangle x0 y0 x1 y1 ++ [(x0, y0)])) (x, y)
  = strictly_inside x0 y0 x1 y1 x y.
Proof.
  intros Hx Hy.
  pose proof (countSegment_up x y x1 y0 y1 Geos.rcc_init Hy) as [Hup0 Hup1].
  pose proof (countSegment_down x y x0 y1 y0 Geos.rcc_init Hy) as [Hdn0 _].
  pose proof (countSegment_down x y x0 y1 y0 (Geos.crossed Geos.rcc_init) Hy)
    as [Hdc0 Hdc1].
  assert (strictly_inside x0 y0 x1 y1 x y = true
          ∨ strictly_inside x0 y0 x1 y1 x y = false
            ∧ (x0 <= x ∧ x <= x1 ∧ y0 <= y ∧ y <= y1)%Q
            ∧ (x == x0 ∨ x == x1 ∨ y == y0 ∨ y == y1)%Q
          ∨ strictly_inside x0 y0 x1 y1 x y = false
            ∧ (x1 < x ∨ y < y0 ∨ y1 < y ∨ x < x0)%Q) as Hcases.
  { unfold strictly_inside.
    destruct (Qltb_spec x0 x), (Qltb_spec x x1), (Qltb_spec y0 y),
      (Qltb_spec y y1); cbn [andb]; [by left|right..].
    all: destruct (Qlt_le_dec x1 x), (Qlt_le_dec y y0), (Qlt_le_dec y1 y),
           (Qlt_le_dec x x0); first [right; split; [done|lra] | left].
    all: split; [done|]; split; lra. }
  destruct Hcases as [Hin|[(-> & Hbox & Hrim)|(-> & Hout)]].
  - rewrite Hin. unfold strictly_inside in Hin.
    apply andb_true_iff in Hin as [Hin Hy1].
    apply andb_true_iff in Hin as [Hin Hy0].
    apply andb_true_iff in Hin as [Hx0 Hx1].
    destruct (Qltb_spec x0 x), (Qltb_spec x x1), (Qltb_spec y0 y),
      (Qltb_spec y y1); try done.
    unfold contains, Geos.locatePointInRing, rectangle.
    cbn [app Geos.countRing].
    rewrite (countSegment_level x y x0 x1 y0) by lra.
    rewrite Hup1 by lra.
    rewrite (countSegment_level x y x1 x0 y1) by lra.
    rewrite Hdc0 by lra. done.
  - apply contains_flag.
    destruct (rectangle_rim x0 y0 x1 y1 x y Hbox Hrim) as (a & b & Hab & Hon).
    eapply edge_flag; [apply rectangle_ring_closed|exact Hab|exact Hon].
  - unfold contains, Geos.locatePointInRing, rectangle.
    cbn [app Geos.countRing].
    destruct (Qlt_le_dec x1 x) as [H1|H1];
      [|destruct (Qlt_le_dec y y0) as [H2|H2];
        [|destruct (Qlt_le_dec y1 y) as [H3|H3];
          [|destruct (Qlt_le_dec y y1) as [H4|H4]]]].
    + rewrite (countSegment_level x y x0 x1 y0) by lra.
      rewrite Hup0 by lra.
      rewrite (countSegment_level x y x1 x0 y1) by lra.
      rewrite Hdn0 by lra. done.
    + rewrite (countSegment_level x y x0 x1 y0) by lra.
      rewrite Hup0 by lra.
      rewrite (countSegment_level x y x1 x0 y1) by lra.
      rewrite Hdn0 by lra. done.
    + rewrite (countSegment_level x y x0 x1 y0) by lra.
      rewrite Hup0 by lra.
      rewrite (countSegment_level x y x1 x0 y1) by lra.
      rewrite Hdn0 by lra. done.
    + rewrite (countSegment_level x y x0 x1 y0) by lra.
      rewrite Hup1 by lra.
      rewrite (countSegment_level x y x1 x0 y1) by lra.
      rewrite Hdc1 by lra. done.
    + rewrite (countSegment_level x y x0 x1 y0) by lra.
      rewrite Hup0 by lra.
      rewrite (countSegment_level x y x1 x0 y1) by lra.
      rewrite Hdn0 by lra. done.
Qed.

(** ** More on the geofence *)

Lemma ward_loop_cons lat long ward_doc rest :
  ward_loop lat long (ward_doc :: rest)
  = (inside ← covers lat long (to_dict ward_doc);
     if inside : bool then
       _ ← getitem (to_dict ward_doc) "name"; Ok (Some (to_dict ward_doc))
     else ward_loop lat long rest).
Proof. done. Qed.

(** X2: for a ward whose boundary is an axis-aligned rectangle listed
    corner by corner, [point_in_polygon] returns [True] exactly for the
    points strictly between the two opposite corners, and [False] for every
    other point, the rim included. *)
Theorem rectangle_geofence lat long x0 y0 x1 y1 :
  (x0 < x1)%Q → (y0 < y1)%Q →
  point_in_polygon lat long (VList (vertex_of <$> rectangle x0 y0 x1 y1))
  = Ok (strictly_inside x0 y0 x1 y1 lat long).
Proof.
  intros Hx Hy. rewrite point_in_polygon_vertices, rectangle_ring by done.
  cbn [mbind result_bind]. f_equal. by apply rectangle_locate.
Qed.

Lemma central_ward_covers lat long :
  covers lat long (to_dict ("ward001", central_ward))
  = Ok (strictly_inside (129716 # 10000) (775946 # 10000)
          (129796 # 10000) (776046 # 10000) lat long).
Proof.
  unfold covers.
  replace (to_dict ("ward001", central_ward) !! "boundaries")
    with (Some (VList (vertex_of <$>
            rectangle (129716 # 10000) (775946 # 10000)
                      (129796 # 10000) (776046 # 10000))))
    by reflexivity.
  rewrite point_in_polygon_vertices, rectangle_ring by done.
  cbn [mbind result_bind]. f_equal. by apply rectangle_locate.
Qed.

Lemma north_ward_covers lat long :
  covers lat long (to_dict ("ward002", north_ward))
  = Ok (strictly_inside (130016 # 10000) (775946 # 10000)
          (130096 # 10000) (776046 # 10000) lat long).
Proof.
  unfold covers.
  replace (to_dict ("ward002", north_ward) !! "boundaries")
    with (Some (VList (vertex_of <$>
            rectangle (130016 # 10000) (775946 # 10000)
                      (130096 # 10000) (776046 # 10000))))
    by reflexivity.
  rewrite point_in_polygon_vertices, rectangle_ring by done.
  cbn [mbind result_bind]. f_equal. by apply rectangle_locate.
Qed.

(** X3: against the two sample wards the lookup never raises: it returns
    Central Ward for the points strictly inside its rectangle, North Ward
    for those strictly inside the other, and [None] everywhere else; no
    point is inside both. *)
Theorem sample_geofence lat long w :
  ward_collection w = seeded_wards →
  find_ward_for_location lat long w
  = (Ok (if strictly_inside (129716 # 10000) (775946 # 10000)
               (129796 # 10000) (776046 # 10000) lat long
         then Some (to_dict ("ward001", central_ward))
         else if strictly_inside (130016 # 10000) (775946 # 10000)
                   (130096 # 10000) (776046 # 10000) lat long
         then Some (to_dict ("ward002", north_ward))
         else None), w)
  ∧ ¬ (strictly_inside (129716 # 10000) (775946 # 10000)
         (129796 # 10000) (776046 # 10000) lat long = true
       ∧ strictly_inside (130016 # 10000) (775946 # 10000)
           (130096 # 10000) (776046 # 10000) lat long = true).
Proof.
  intros Hw. split.
  - rewrite find_ward_for_location_run, Hw, stream_seeded_wards.
    rewrite ward_loop_cons, central_ward_covers.
    cbn [mbind result_bind].
    destruct (strictly_inside _ _ _ _ lat long); [done|].
    rewrite ward_loop_cons, north_ward_covers. cbn [mbind result_bind].
    by destruct (strictly_inside _ _ _ _ lat long).
  - unfold strictly_inside. intros [H1 H2].
    repeat (apply andb_true_iff in H1 as [H1 ?]).
    repeat (apply andb_true_iff in H2 as [H2 ?]).
    destruct (Qltb_spec lat (129796 # 10000)); [|done].
    destruct (Qltb_spec (130016 # 10000) lat); [|done].
    lra.
Qed.

Lemma ward_loop_Some_inv lat long wards ward :
  ward_loop lat long wards = Ok (Some ward) →
  ∃ pre ward_doc post,
    wards = pre ++ ward_doc :: post
    ∧ ward = to_dict ward_doc
    ∧ uncovered lat long pre
    ∧ covers lat long ward = Ok true
    ∧ is_Some (ward !! "name").
Proof.
  induction wards as [|ward_doc rest IH]; [done|]. cbn.
  destruct (covers lat long (to_dict ward_doc)) as [[]|] eqn:Hc;
    cbn; [| |done].
  - unfold getitem.
    destruct (to_dict ward_doc !! "name") eqn:Hn; cbn; [|done].
    intros [= <-]. exists [], ward_doc, rest.
    split_and!; [done|done|constructor|done|by rewrite Hn].
  - intros H. destruct (IH H) as (pre & wd & post & -> & -> & Hpre & ? & ?).
    exists (ward_doc :: pre), wd, post.
    split_and!; [done|done|by constructor|done|done].
Qed.

Lemma ward_loop_None_inv lat long wards :
  ward_loop lat long wards = Ok None → uncovered lat long wards.
Proof.
  induction wards as [|ward_doc rest IH]; [constructor|]. cbn.
  destruct (covers lat long (to_dict ward_doc)) as [[]|] eqn:Hc;
    cbn; [| |done].
  - unfold getitem. by destruct (to_dict ward_doc !! "name").
  - intros H. constructor; [done|by apply IH].
Qed.

(** X4: a ward returned by [find_ward_for_location] is a document of the
    ward collection with its document id added under [id]; it has a
    [name], its polygon contains the point, no ward before it in document
    order contains the point, and the store is left as it was. *)
Theorem find_ward_sound lat long w w' ward :
  find_ward_for_location lat long w = (Ok (Some ward), w') →
  w' = w
  ∧ ∃ pre k d post,
      stream (ward_collection w) = pre ++ (k, d) :: post
      ∧ ward_collection w !! k = Some d
      ∧ ward = <["id" := VStr k]> d
      ∧ ward !! "id" = Some (VStr k)
      ∧ is_Some (ward !! "name")
      ∧ covers lat long ward = Ok true
      ∧ uncovered lat long pre.
Proof.
  rewrite find_ward_for_location_run. intros [= Hloop <-]. split; [done|].
  destruct (ward_loop_Some_inv _ _ _ _ Hloop)
    as (pre & [k d] & post & Hstream & -> & Hpre & Hcov & Hname).
  exists pre, k, d, post.
  split_and!; [done| |done|apply lookup_insert_eq|done..].
  apply elem_of_stream. rewrite Hstream. set_solver.
Qed.

(** X5: [find_ward_for_location] returns [None] exactly when every ward
    of the collection tests as not containing the point (a ward without
    [boundaries] counting as such). *)
Theorem find_ward_none_iff lat long w :
  find_ward_for_location lat long w = (Ok None, w)
  ↔ uncovered lat long (stream (ward_collection w)).
Proof.
  rewrite find_ward_for_location_run. split.
  - intros [= H]. by apply ward_loop_None_inv.
  - intros H. by rewrite ward_loop_uncovered.
Qed.


(** ** Wards that cannot win *)









(** ** Every path of the orchestrator *)

Lemma process_new_issue_path issue_id w :
  process_path issue_id w (process_new_issue issue_id w).
Proof.
  rewrite process_new_issue_run.
  destruct (issues_collection w !! issue_id) as [d|] eqn:Hd;
    [|apply path_stopped].
  cbn zeta.
  destruct (coordinates _) as [[lat long]|] eqn:Hxy; [|apply path_stopped].
  destruct (ward_loop _ _ _) as [[ward|]|] eqn:Hward; [| |apply path_stopped].
  - unfold process_resolved, getitem.
    destruct (ward !! "ward_id") as [ward_id|] eqn:Hid; [|apply path_stopped].
    destruct (ward !! "name") as [ward_name|] eqn:Hname;
      [|apply path_stopped].
    cbn zeta.
    destruct (ward !! "officer_email") as [officer_email|] eqn:Hofficer.
    + destruct (build_message _ _ _) as [msg|e] eqn:Hmsg.
      * by eapply path_sent.
      * by eapply path_unsent.
    + by eapply path_assigned.
  - by eapply path_no_coverage.
Qed.

Lemma fields_outside k :
  k ∉ written_keys →
  no_coverage_fields !! k = None
  ∧ (∀ ward_id ward_name, assignment_fields ward_id ward_name !! k = None)
  ∧ (∀ email_sent, status_fields email_sent !! k = None).
Proof.
  unfold written_keys. rewrite !not_elem_of_cons.
  intros (? & ? & ? & ? & ? & ? & _).
  unfold no_coverage_fields, assignment_fields, status_fields.
  split_and!; intros;
    rewrite ?lookup_insert_ne by done; by apply lookup_singleton_ne.
Qed.

Lemma write_other issue_id fields d w other :
  other ≠ issue_id →
  issues_collection (write issue_id fields d w) !! other
  = issues_collection w !! other.
Proof. intros Hne. cbn. by rewrite lookup_insert_ne. Qed.

Lemma write_dom issue_id fields d w :
  is_Some (issues_collection w !! issue_id) →
  dom (issues_collection (write issue_id fields d w))
  = dom (issues_collection w).
Proof. intros H. cbn. by apply dom_insert_lookup_L. Qed.

Lemma write_is_Some issue_id fields d w :
  is_Some (issues_collection (write issue_id fields d w) !! issue_id).
Proof. rewrite write_lookup. by eexists. Qed.

(** X8: [process_new_issue] never changes the ward collection, never
    creates or deletes an issue document, and leaves every issue other than
    the one it was called for exactly as it was. *)
Theorem process_touches_one_document issue_id w :
  ward_collection (process_new_issue issue_id w).2 = ward_collection w
  ∧ dom (issues_collection (process_new_issue issue_id w).2)
    = dom (issues_collection w)
  ∧ ∀ other,
      other ≠ issue_id →
      issues_collection (process_new_issue issue_id w).2 !! other
      = issues_collection w !! other.
Proof.
  destruct (process_new_issue_path issue_id w)
    as [|d ? ? Hd|d ? ? ? ? ? Hd|d ? ? ? ? ? ? ? Hd|d ? ? ? ? ? ? ? Hd];
    cbn [snd].
  - done.
  - split_and!; [done|by rewrite write_dom|intros; by apply write_other].
  - split_and!; [done|by rewrite write_dom|intros; by apply write_other].
  - split_and!; [done| |].
    + rewrite write_dom by apply write_is_Some. by rewrite write_dom.
    + intros. by rewrite !write_other.
  - split_and!; [done| |].
    + rewrite write_dom;
        [|cbn [attempted issues_collection]; apply write_is_Some].
      cbn [attempted issues_collection]. by rewrite write_dom.
    + intros. rewrite write_other by done. cbn [attempted issues_collection].
      by rewrite write_other.
Qed.

(** X9: on the processed issue, every field other than the six that
    [process_new_issue] writes keeps its value. *)
Theorem process_keeps_other_fields issue_id w k :
  k ∉ written_keys →
  field (process_new_issue issue_id w).2 issue_id k = field w issue_id k.
Proof.
  intros Hk. destruct (fields_outside k Hk) as (Hnc & Has & Hst).
  destruct (process_new_issue_path issue_id w)
    as [|d ? ? Hd|d ? ? ? ? ? Hd|d ? ? ? ? ? ? ? Hd|d ? ? ? ? ? ? ? Hd];
    cbn [snd]; try done.
  all: rewrite ?field_write_old by done.
  all: unfold field; rewrite Hd; cbn [mbind option_bind]; try done.
  all: rewrite lookup_union_r; [done|]; by rewrite lookup_fmap, Has.
Qed.

(** X10: one invocation makes at most two document updates and opens
    at most one SMTP session (at most three effects in all), and every
    update it makes is to the issue it was called for. *)
Theorem process_effects_bound issue_id w :
  ∃ new,
    trace (process_new_issue issue_id w).2 = trace w ++ new
    ∧ length new ≤ 3
    ∧ length (writes new) ≤ 2
    ∧ length (sends new) ≤ 1
    ∧ Forall (about_issue issue_id) new.
Proof.
  destruct (process_new_issue_path issue_id w)
    as [|d ? ? Hd|d ? ? ? ? ? Hd|d ? ? ? ? ? ? ? Hd|d ? ? ? ? ? ? ? Hd];
    cbn [snd write attempted trace].
  - exists []. rewrite app_nil_r. split_and!; cbn; (done || lia || constructor).
  - eexists [_]. split_and!; [done|cbn; lia..|by repeat constructor].
  - eexists [_]. split_and!; [done|cbn; lia..|by repeat constructor].
  - eexists [_; _]. rewrite <-!app_assoc.
    split_and!; [done|cbn; lia..|by repeat constructor].
  - eexists [_; _; _]. rewrite <-!app_assoc.
    split_and!; [done|cbn; lia..|by repeat constructor].
Qed.

(** ** What the record says after a run *)

(** X11: after a call that returned [True] the record carries a boolean
    [notification_sent], the same boolean under [notification_email_sent]
    and a [notification_time]; and [notification_sent = True] is recorded
    only right after an SMTP session that succeeded. *)
Theorem recorded_status_is_sound issue_id w w' :
  process_new_issue issue_id w = (Ok true, w') →
  ∃ b t,
    field w' issue_id "notification_sent" = Some (VBool b)
    ∧ field w' issue_id "notification_email_sent" = Some (VBool b)
    ∧ field w' issue_id "notification_time" = Some (VTime t)
    ∧ (b = true →
       ∃ pre msg,
         trace w' = pre ++ [EvSend msg; EvUpdate issue_id (status_fields true)]
         ∧ smtp pre msg = true).
Proof.
  intros Hrun. pose proof (process_new_issue_path issue_id w) as Hpath.
  rewrite Hrun in Hpath. inversion Hpath; subst; clear Hpath.
  - eexists false, _. split_and!; [| | |done].
    + by apply (field_write _ _ _ _ _ (Value (VBool false))).
    + by apply (field_write _ _ _ _ _ (Value (VBool false))).
    + by apply (field_write _ _ _ _ _ SERVER_TIMESTAMP).
  - eexists _, _. split_and!.
    + by eapply (field_write _ _ _ _ _ (Value (VBool _))).
    + by eapply (field_write _ _ _ _ _ (Value (VBool _))).
    + by apply (field_write _ _ _ _ _ SERVER_TIMESTAMP).
    + intros Hb. eexists _, msg. cbn [write attempted trace].
      rewrite Hb, <-app_assoc. done.
Qed.

(** X12: when the issue has no [latitude], no [longitude], or one of them
    is not convertible by [float], the call returns [False] and leaves the
    world untouched: not even the no-coverage flags are written. *)
Theorem unreadable_coordinates issue_id w d :
  issues_collection w !! issue_id = Some d →
  (d !! "latitude" = None
   ∨ d !! "longitude" = None
   ∨ ∃ v e, (d !! "latitude" = Some v ∨ d !! "longitude" = Some v)
            ∧ py_float v = Raise e) →
  process_new_issue issue_id w = (Ok false, w).
Proof.
  intros Hd Hbad. rewrite process_new_issue_run, Hd. cbn zeta.
  assert (∃ e, coordinates (<["id" := VStr issue_id]> d) = Raise e)
    as [e ->]; [|done].
  unfold coordinates, getitem. rewrite !lookup_insert_ne by done.
  destruct (d !! "latitude") as [lat_v|] eqn:Hlat; [|by eexists].
  destruct (d !! "longitude") as [long_v|] eqn:Hlong; [|by eexists].
  cbn [mbind result_bind].
  destruct Hbad as [?|[?|(v & e & [[= ->]|[= ->]] & Hv)]]; [done|done|..].
  - rewrite Hv. by eexists.
  - rewrite Hv. destruct (py_float lat_v); by eexists.
Qed.

(** X13: when the resolved ward has a [ward_id] but no
    [officer_email], the assignment is written and nothing else is: the
    call returns [False], no SMTP session is opened and the notification
    fields keep their previous values. *)
Theorem ward_without_officer issue_id w d lat long ward ward_id :
  issues_collection w !! issue_id = Some d →
  coordinates (<["id" := VStr issue_id]> d) = Ok (lat, long) →
  ward_loop lat long (stream (ward_collection w)) = Ok (Some ward) →
  ward !! "ward_id" = Some ward_id →
  ward !! "officer_email" = None →
  ∃ ward_name w',
    process_new_issue issue_id w = (Ok false, w')
    ∧ trace w'
      = trace w ++ [EvUpdate issue_id (assignment_fields ward_id ward_name)]
    ∧ field w' issue_id "ward_assigned" = Some (VBool true)
    ∧ field w' issue_id "notification_sent" = d !! "notification_sent"
    ∧ field w' issue_id "notification_time" = d !! "notification_time".
Proof.
  intros Hd Hxy Hward Hid Hofficer.
  pose proof Hward as Hname.
  apply ward_loop_Some_name in Hname as [ward_name Hname].
  exists ward_name. eexists.
  rewrite process_new_issue_run, Hd. cbn zeta. rewrite Hxy, Hward.
  unfold process_resolved, getitem. rewrite Hid, Hname, Hofficer. cbn zeta.
  split_and!; [done|done|..].
  - by apply (field_write _ _ _ _ _ (Value (VBool true))).
  - by apply field_write_old.
  - by apply field_write_old.
Qed.

(** ** The payload *)

Lemma build_message_Ok_iff officer_email issue_data ward_data :
  (∃ msg, build_message officer_email issue_data ward_data = Ok msg)
  ↔ payload_ready issue_data ward_data.
Proof.
  unfold payload_ready, build_message, getitem, strftime. split.
  - intros [msg H].
    destruct (ward_data !! "name"); [|done].
    destruct (issue_data !! "category"); [|done].
    destruct (ward_data !! "ward_id"); [|done].
    destruct (issue_data !! "description"); [|done].
    destruct (issue_data !! "latitude"); [|done].
    destruct (issue_data !! "longitude"); [|done].
    destruct (issue_data !! "created_at") as [[]|]; try done.
    destruct (issue_data !! "id"); [|done].
    split_and!; by eexists.
  - intros ([? ->] & [? ->] & [? ->] & [? ->] & [? ->] & [? ->] & [? ->]
            & [? ->]).
    by eexists.
Qed.

Lemma build_message_fields officer_email issue_data ward_data msg :
  build_message officer_email issue_data ward_data = Ok msg →
  msg_to msg = officer_email
  ∧ ward_data !! "name" = Some (body_ward msg)
  ∧ ward_data !! "ward_id" = Some (body_ward_id msg)
  ∧ issue_data !! "id" = Some (body_issue_id msg)
  ∧ issue_data !! "category" = Some (body_category msg)
  ∧ issue_data !! "description" = Some (body_description msg).
Proof.
  unfold build_message, getitem, strftime. intros H.
  destruct (ward_data !! "name"); [|done].
  destruct (issue_data !! "category"); [|done].
  destruct (ward_data !! "ward_id"); [|done].
  destruct (issue_data !! "description"); [|done].
  destruct (issue_data !! "latitude"); [|done].
  destruct (issue_data !! "longitude"); [|done].
  destruct (issue_data !! "created_at") as [[]|]; try done.
  destruct (issue_data !! "id"); [|done].
  by injection H as <-.
Qed.

(** X14: [send_email_notification] opens an SMTP session exactly when
    every field read by the template is present and [created_at] is a
    timestamp. *)
Theorem dispatcher_sends_iff officer_email issue_data ward_data w :
  one_transport_call officer_email issue_data ward_data w
  ↔ payload_ready issue_data ward_data.
Proof.
  unfold one_transport_call. rewrite send_email_notification_run.
  rewrite <-(build_message_Ok_iff officer_email).
  destruct (build_message _ _ _) as [msg|e]; cbn [snd attempted trace].
  - rewrite sends_app, length_app. cbn. split; [by eexists|lia].
  - split; [lia|]. by intros [? [=]].
Qed.

(** X15: the message sent by a successful call carries the id of the
    processed issue and the ward id and name that were written on the
    record, and it is addressed to the [officer_email] of a ward document
    with that ward id. *)
Theorem message_matches_record issue_id w w' msg :
  process_new_issue issue_id w = (Ok true, w') →
  sends (trace w') = sends (trace w) ++ [msg] →
  body_issue_id msg = VStr issue_id
  ∧ field w' issue_id "ward_id" = Some (body_ward_id msg)
  ∧ field w' issue_id "ward_name" = Some (body_ward msg)
  ∧ ∃ k ward_doc,
      ward_collection w !! k = Some ward_doc
      ∧ ward_doc !! "ward_id" = Some (body_ward_id msg)
      ∧ ward_doc !! "officer_email" = Some (msg_to msg).
Proof.
  intros Hrun Hsends. pose proof (process_new_issue_path issue_id w) as Hpath.
  rewrite Hrun in Hpath. inversion Hpath; subst; clear Hpath.
  - exfalso. cbn [write trace] in Hsends.
    rewrite !sends_app in Hsends. cbn in Hsends.
    rewrite !app_nil_r in Hsends.
    apply (f_equal length) in Hsends. rewrite length_app in Hsends.
    cbn in Hsends. lia.
  - cbn [write attempted trace] in Hsends.
    rewrite !sends_app in Hsends. cbn in Hsends.
    rewrite !app_nil_r in Hsends.
    apply app_inv_head in Hsends as [= <-].
    match goal with
    | H : build_message _ _ _ = Ok _ |- _ =>
        destruct (build_message_fields _ _ _ _ H)
          as (Hto & Hbname & Hbid & Hiid & _)
    end.
    rewrite lookup_insert_eq in Hiid. injection Hiid as <-.
    match goal with
    | H : ward_loop _ _ _ = Ok (Some _) |- _ =>
        destruct (ward_loop_Some_inv _ _ _ _ H)
          as (pre & [k ward_doc] & post & Hstream & -> & _)
    end.
    pose proof (assignment_lookup (server_time w) ward_id ward_name d)
      as (Hwid & Hwname & _).
    edestruct field_status_write as [_ Hkept].
    split_and!; [done| | |].
    + rewrite Hkept, Hwid; [congruence|set_solver].
    + rewrite Hkept, Hwname; [congruence|set_solver].
    + exists k, ward_doc. unfold to_dict in *. cbn [fst snd] in *.
      rewrite lookup_insert_ne in * by done.
      split_and!; [|congruence..].
      apply elem_of_stream. rewrite Hstream. set_solver.
Qed.

(** ** Seeding the wards *)

Lemma seeded_wards_eq :
  seeded_wards = <["ward002" := north_ward]> {["ward001" := central_ward]}.
Proof. vm_compute. reflexivity. Qed.

Lemma stream_nil_iff c : stream c = [] ↔ c = ∅.
Proof.
  unfold stream. rewrite <-map_to_list_empty_iff. split.
  - intros H. apply Permutation_nil_r. by rewrite <-H, merge_sort_Permutation.
  - by intros ->.
Qed.

Lemma setup_ward_collection_empty w :
  ward_collection w = ∅ →
  setup_ward_collection w
  = (Ok (),
     {| ward_collection := seeded_wards;
        issues_collection := issues_collection w;
        server_time := server_time w;
        trace := trace w |}).
Proof.
  intros Hw. unfold setup_ward_collection. rewrite Hw, stream_empty.
  by replace (set_wards sample_wards ∅) with (Ok seeded_wards)
    by (vm_compute; reflexivity).
Qed.

Lemma setup_ward_collection_nonempty w :
  ward_collection w ≠ ∅ → setup_ward_collection w = (Ok (), w).
Proof.
  intros Hw. unfold setup_ward_collection.
  destruct (stream (ward_collection w)) eqn:E; [|done].
  by apply stream_nil_iff in E.
Qed.

(** X1: [setup_ward_collection] never raises and never touches issues;
    on an empty ward collection it stores the two sample wards under their
    ward ids, on a non-empty one it changes nothing, and running it a
    second time changes nothing. *)
Theorem setup_ward_collection_seeds_once w :
  ∃ w',
    setup_ward_collection w = (Ok (), w')
    ∧ issues_collection w' = issues_collection w
    ∧ trace w' = trace w
    ∧ (ward_collection w = ∅ →
       ward_collection w'
       = <["ward002" := north_ward]> {["ward001" := central_ward]})
    ∧ (ward_collection w ≠ ∅ → w' = w)
    ∧ setup_ward_collection w' = (Ok (), w').
Proof.
  destruct (decide (ward_collection w = ∅)) as [Hw|Hw].
  - rewrite setup_ward_collection_empty by done. eexists.
    split_and!; [done|done|done| |done|].
    + intros _. apply seeded_wards_eq.
    + apply setup_ward_collection_nonempty. cbn. rewrite seeded_wards_eq.
      apply insert_non_empty.
  - rewrite setup_ward_collection_nonempty by done. exists w.
    split_and!; [done..| ].
    by apply setup_ward_collection_nonempty.
Qed.

(** ** The sample run *)

(** X16: [main] on a database without wards.  An [SMTP_PORT] that does
    not spell an integer makes it raise before anything is touched; missing
    or empty credentials make it return without touching anything;
    otherwise it seeds the two wards, stores the sample issue, assigns it
    to Central Ward, sends one message to that ward's officer and leaves
    the other issues alone. *)
Theorem main_on_fresh_database int_of_str environ issue_id now w :
  ward_collection w = ∅ →
  (int_of_str (default "587" (environ !! "SMTP_PORT")) = None →
   main int_of_str environ issue_id now w = (Raise ValueError, w))
  ∧ (is_Some (int_of_str (default "587" (environ !! "SMTP_PORT"))) →
     truthy (environ !! "EMAIL_SENDER")
       && truthy (environ !! "EMAIL_PASSWORD") = false →
     main int_of_str environ issue_id now w = (Ok (), w))
  ∧ (is_Some (int_of_str (default "587" (environ !! "SMTP_PORT"))) →
     truthy (environ !! "EMAIL_SENDER")
       && truthy (environ !! "EMAIL_PASSWORD") = true →
     ∃ w' msg,
       main int_of_str environ issue_id now w = (Ok (), w')
       ∧ ward_collection w' = seeded_wards
       ∧ field w' issue_id "ward_id" = Some (VStr "ward001")
       ∧ field w' issue_id "ward_assigned" = Some (VBool true)
       ∧ field w' issue_id "category" = Some (VStr "Road Damage")
       ∧ sends (trace w') = sends (trace w) ++ [msg]
       ∧ msg_to msg = VStr "aryaniaf2608@gmail.com"
       ∧ body_issue_id msg = VStr issue_id
       ∧ ∀ other,
           other ≠ issue_id →
           issues_collection w' !! other = issues_collection w !! other).
Proof.
  intros Hw. unfold main, WardNotificationSystem. cbv zeta. split_and!.
  - by intros ->.
  - intros [port ->] Hcred.
    unfold mbind, M_bind, lift. cbn [email_sender email_password].
    by rewrite <-negb_andb, Hcred.
  - intros [port ->] Hcred.
    unfold mbind at 1. unfold M_bind at 1. unfold lift.
    cbn [email_sender email_password].
    rewrite <-negb_andb, Hcred. cbn [negb].
    unfold mbind at 1. unfold M_bind at 1.
    rewrite setup_ward_collection_empty by done.
    set (ws := {| ward_collection := seeded_wards;
                  issues_collection := issues_collection w;
                  server_time := server_time w;
                  trace := trace w |}).
    unfold mbind at 1. unfold M_bind at 1.
    unfold test_with_sample_issue.
    unfold mbind at 1. unfold M_bind at 1. unfold document_set.
    set (wt := {| ward_collection := ward_collection ws;
                  issues_collection :=
                    <[issue_id := sample_issue now]> (issues_collection ws);
                  server_time := server_time ws;
                  trace := trace ws |}).
    assert (issues_collection wt !! issue_id = Some (sample_issue now))
      as Hd by apply lookup_insert_eq.
    eassert (build_message (VStr "aryaniaf2608@gmail.com")
               (<["id" := VStr issue_id]> (sample_issue now))
               (to_dict ("ward001", central_ward)) = Ok _) as Hmsg
      by reflexivity.
    erewrite process_notified_run;
      [|exact Hd|apply sample_issue_coordinates|apply sample_issue_ward
       |reflexivity|reflexivity|reflexivity|exact Hmsg].
    pose proof (assignment_lookup (server_time wt) (VStr "ward001")
                  (VStr "Central Ward") (sample_issue now))
      as (Hwid & _ & Hassigned).
    edestruct field_status_write as [_ Hkept].
    eexists _, _. split; [done|]. split_and!.
    + done.
    + rewrite Hkept, Hwid; [done|set_solver].
    + rewrite Hkept, Hassigned; [done|set_solver].
    + rewrite field_write_old by done.
      rewrite lookup_union_r by (by rewrite lookup_fmap). done.
    + cbn. rewrite !sends_app. cbn. by rewrite !app_nil_r.
    + done.
    + done.
    + intros other Hne. rewrite write_other by done.
      cbn [attempted issues_collection]. rewrite write_other by done.
      cbn. by rewrite lookup_insert_ne.
Qed.

(** ** Closing the boundary by hand *)

Lemma countRing_step pt p1 p2 rest c :
  Geos.countRing pt (p1 :: p2 :: rest) c
  = (let c' := Geos.countSegment pt p1 p2 c in
     if Geos.isPointOnSegment c' then c'
     else Geos.countRing pt (p2 :: rest) c').
Proof. done. Qed.

Lemma countRing_snoc pt l a b c :
  Geos.isPointOnSegment c = false →
  Geos.countRing pt (l ++ [a; b]) c
  = (let c1 := Geos.countRing pt (l ++ [a]) c in
     if Geos.isPointOnSegment c1 then c1 else Geos.countSegment pt a b c1).
Proof.
  revert c. induction l as [|x l IH]; intros c Hc.
  - change ([] ++ [a; b]) with [a; b]. change ([] ++ [a]) with [a].
    rewrite countRing_step. cbv zeta.
    change (Geos.countRing pt [a] c) with c.
    change (Geos.countRing pt [b] (Geos.countSegment pt a b c))
      with (Geos.countSegment pt a b c).
    rewrite Hc.
    by destruct (Geos.isPointOnSegment (Geos.countSegment pt a b c)).
  - destruct l as [|y l].
    + change ([x] ++ [a; b]) with (x :: a :: [b]).
      change ([x] ++ [a]) with (x :: a :: []).
      rewrite !(countRing_step pt x). cbv zeta.
      destruct (Geos.isPointOnSegment (Geos.countSegment pt x a c)) eqn:E.
      * by rewrite E.
      * by apply (IH _ E).
    + change ((x :: y :: l) ++ [a; b]) with (x :: y :: (l ++ [a; b])).
      change ((x :: y :: l) ++ [a]) with (x :: y :: (l ++ [a])).
      rewrite !(countRing_step pt x). cbv zeta.
      destruct (Geos.isPointOnSegment (Geos.countSegment pt x y c)) eqn:E.
      * by rewrite E.
      * by apply (IH _ E).
Qed.

(** A segment that has shrunk to a point reports nothing but that
    point. *)
Lemma countSegment_degenerate pt a b c :
  same_point a b → ¬ same_point pt b → Geos.countSegment pt a b c = c.
Proof.
  unfold same_point.
  destruct a as [ax ay], b as [bx by'], pt as [x y]. cbn [fst snd].
  intros [Hx Hy] Hne. unfold Geos.countSegment. cbn [fst snd].
  q_decide; cbn [andb orb]; q_decide; try done; exfalso; apply Hne; lra.
Qed.

Lemma countRing_degenerate_tail pt l a b :
  l ≠ [] → same_point a b →
  Geos.countRing pt (l ++ [a; b]) Geos.rcc_init
  = Geos.countRing pt (l ++ [a]) Geos.rcc_init.
Proof.
  intros Hl Hab. rewrite countRing_snoc by done. cbv zeta.
  destruct (Geos.isPointOnSegment _) eqn:E; [done|].
  apply countSegment_degenerate; [done|]. intros Hpt.
  destruct l as [|h l]; [done|].
  assert (a ∈ l ++ [a]) as Ha by set_solver.
  destruct (second_endpoint h _ a Ha) as [a' Ha'].
  rewrite (countRing_flag pt (h :: l ++ [a]) a' a) in E; [done|done|].
  apply detects_endpoint. destruct Hpt, Hab. split; by etrans.
Qed.

(** X17: repeating the first vertex at the end of a boundary of three or
    more vertices does not change the answer of [point_in_polygon]. *)
Theorem explicit_closing_vertex lat long v0 rest :
  2 ≤ length rest →
  point_in_polygon lat long (VList (vertex_of <$> (v0 :: rest) ++ [v0]))
  = point_in_polygon lat long (VList (vertex_of <$> v0 :: rest)).
Proof.
  intros Hlen. rewrite !point_in_polygon_vertices.
  destruct rest as [|v1 [|v2 rest]]; cbn in Hlen; try lia.
  set (vs := v0 :: v1 :: v2 :: rest).
  assert (LinearRing (vs ++ [v0]) = Ok (POLYGON (vs ++ [v0]))) as ->.
  { assert (Geos.equals2D v0 (List.last (vs ++ [v0]) v0) = true) as Hcl.
    { rewrite last_last. unfold Geos.equals2D.
      apply andb_true_iff. split; by apply Qeq_bool_iff. }
    unfold vs in *. cbn [app] in *. unfold LinearRing.
    destruct rest; cbn [app] in *; by rewrite Hcl. }
  destruct rest as [|v3 rest]; [done|].
  assert (LinearRing vs
          = if Geos.equals2D v0 (List.last vs v0) then Ok (POLYGON vs)
            else Ok (POLYGON (vs ++ [v0]))) as -> by done.
  destruct (Geos.equals2D v0 (List.last vs v0)) eqn:E; [|done].
  cbn [mbind result_bind]. f_equal.
  unfold contains, Geos.locatePointInRing.
  assert (∃ l a, vs = l ++ [a] ∧ l ≠ [] ∧ List.last vs v0 = a)
    as (l & a & Hvs & Hl & Ha).
  { exists (removelast vs), (List.last vs v0).
    split_and!; [by apply app_removelast_last|done|done]. }
  rewrite Ha in E. clearbody vs. subst vs.
  rewrite <-app_assoc. cbn [app].
  rewrite countRing_degenerate_tail; [done|done|].
  unfold Geos.equals2D in E. apply andb_true_iff in E as [E1 E2].
  apply Qeq_bool_iff in E1, E2. split; by symmetry.
Qed.

End Environment.

(** * Concrete runs *)

(** ** Instances of the theorems above *)

Lemma find_ward_empty_set_witness :
  ward_collection empty_world = ∅
  ∧ find_ward_for_location no_numeric_strings 0 0 empty_world
    = (Ok None, empty_world).
Proof.
  split; [reflexivity|].
  apply (find_ward_empty_set no_numeric_strings 0 0 empty_world).
  reflexivity.
Defined.

(** Two wards contain (13.0056, 77.5996): North Ward and the district
    around it.  North Ward comes first in document order and wins. *)
Lemma find_ward_first_match_witness :
  stream (ward_collection overlap_world)
    = [("ward001", central_ward)]
      ++ ("ward002", north_ward) :: [("ward003", district_ward)]
  ∧ uncovered no_numeric_strings (130056 # 10000) (775996 # 10000)
      [("ward001", central_ward)]
  ∧ covers no_numeric_strings (130056 # 10000) (775996 # 10000)
      (to_dict ("ward002", north_ward)) = Ok true
  ∧ covers no_numeric_strings (130056 # 10000) (775996 # 10000)
      (to_dict ("ward003", district_ward)) = Ok true
  ∧ find_ward_for_location no_numeric_strings
      (130056 # 10000) (775996 # 10000) overlap_world
    = (Ok (Some (to_dict ("ward002", north_ward))), overlap_world)
  ∧ (find_ward_for_location no_numeric_strings
       (130056 # 10000) (775996 # 10000);;
     find_ward_for_location no_numeric_strings
       (130056 # 10000) (775996 # 10000)) overlap_world
    = (Ok (Some (to_dict ("ward002", north_ward))), overlap_world).
Proof.
  assert (stream (ward_collection overlap_world)
          = [("ward001", central_ward)]
            ++ ("ward002", north_ward) :: [("ward003", district_ward)])
    as Hstream by (vm_compute; reflexivity).
  assert (uncovered no_numeric_strings (130056 # 10000) (775996 # 10000)
            [("ward001", central_ward)]) as Hpre.
  { constructor; [vm_compute; reflexivity|constructor]. }
  assert (covers no_numeric_strings (130056 # 10000) (775996 # 10000)
            (to_dict ("ward002", north_ward)) = Ok true) as Hin
    by (vm_compute; reflexivity).
  split_and!; [exact Hstream|exact Hpre|exact Hin|vm_compute; reflexivity|..].
  - apply (proj1 (proj1 (proj2
             (find_ward_first_match no_numeric_strings _ _ overlap_world
                _ _ _ Hstream Hpre)) Hin) (VStr "North Ward") eq_refl).
  - apply (proj1 (proj1 (proj2
             (find_ward_first_match no_numeric_strings _ _ overlap_world
                _ _ _ Hstream Hpre)) Hin) (VStr "North Ward") eq_refl).
Defined.

Lemma process_no_coverage_witness :
  issues_collection (far_world "i1" 0) !! "i1" = Some (far_issue 0)
  ∧ coordinates no_numeric_strings (<["id" := VStr "i1"]> (far_issue 0))
    = Ok (10, 10)%Q
  ∧ uncovered no_numeric_strings 10 10
      (stream (ward_collection (far_world "i1" 0)))
  ∧ ∃ w',
      process_new_issue no_numeric_strings smtp_up "i1" (far_world "i1" 0)
        = (Ok false, w')
      ∧ field w' "i1" "ward_assigned" = Some (VBool false)
      ∧ field w' "i1" "notification_sent" = Some (VBool false)
      ∧ trace w'
        = trace (far_world "i1" 0) ++ [EvUpdate "i1" no_coverage_fields]
      ∧ sends (trace w') = sends (trace (far_world "i1" 0)).
Proof.
  assert (issues_collection (far_world "i1" 0) !! "i1" = Some (far_issue 0))
    as Hd by reflexivity.
  assert (coordinates no_numeric_strings
            (<["id" := VStr "i1"]> (far_issue 0)) = Ok (10, 10)%Q)
    as Hxy by reflexivity.
  assert (uncovered no_numeric_strings 10 10
            (stream (ward_collection (far_world "i1" 0)))) as Hno.
  { replace (stream (ward_collection (far_world "i1" 0)))
      with [("ward001", central_ward); ("ward002", north_ward)]
      by (vm_compute; reflexivity).
    repeat (constructor; [vm_compute; reflexivity|]). constructor. }
  split_and!; [exact Hd|exact Hxy|exact Hno|].
  exact (proj1 (process_no_coverage no_numeric_strings smtp_up "i1"
                  (far_world "i1" 0) (far_issue 0) 10 10 Hd Hxy) Hno).
Defined.

(** The mail server is down: the assignment is written first and stays. *)
Lemma assignment_precedes_notification_witness :
  issues_collection (seeded_world "i1" 0) !! "i1" = Some (sample_issue 0)
  ∧ coordinates no_numeric_strings (<["id" := VStr "i1"]> (sample_issue 0))
    = Ok (129756 # 10000, 775996 # 10000)
  ∧ ward_loop no_numeric_strings (129756 # 10000) (775996 # 10000)
      (stream (ward_collection (seeded_world "i1" 0)))
    = Ok (Some (to_dict ("ward001", central_ward)))
  ∧ to_dict ("ward001", central_ward) !! "ward_id" = Some (VStr "ward001")
  ∧ ∃ b w' rest,
      process_new_issue no_numeric_strings smtp_down "i1"
        (seeded_world "i1" 0) = (Ok b, w')
      ∧ trace w'
        = EvUpdate "i1"
            (assignment_fields (VStr "ward001") (VStr "Central Ward"))
          :: rest
      ∧ field w' "i1" "ward_assigned" = Some (VBool true)
      ∧ field w' "i1" "notification_sent" = Some (VBool false).
Proof.
  assert (issues_collection (seeded_world "i1" 0) !! "i1"
          = Some (sample_issue 0)) as Hd by reflexivity.
  assert (coordinates no_numeric_strings
            (<["id" := VStr "i1"]> (sample_issue 0))
          = Ok (129756 # 10000, 775996 # 10000)) as Hxy by reflexivity.
  assert (ward_loop no_numeric_strings (129756 # 10000) (775996 # 10000)
            (stream (ward_collection (seeded_world "i1" 0)))
          = Ok (Some (to_dict ("ward001", central_ward)))) as Hward
    by (vm_compute; reflexivity).
  assert (to_dict ("ward001", central_ward) !! "ward_id"
          = Some (VStr "ward001")) as Hid by reflexivity.
  split_and!; [exact Hd|exact Hxy|exact Hward|exact Hid|].
  destruct (proj1 (assignment_precedes_notification no_numeric_strings
                     smtp_down "i1" (seeded_world "i1" 0) (sample_issue 0)
                     _ _ _ Hd Hxy Hward) _ Hid)
    as (ward_name & b & w' & rest & Hname & Hrun & Htrace & _ & _ & _
        & Hassigned & Hsent).
  injection Hname as <-.
  exists b, w', rest. split_and!; [exact Hrun|exact Htrace|exact Hassigned|].
  replace w' with
    (process_new_issue no_numeric_strings smtp_down "i1"
       (seeded_world "i1" 0)).2 by (by rewrite Hrun).
  vm_compute. reflexivity.
Defined.

Lemma central_ward_end_to_end_witness :
  ward_collection (seeded_world "i1" 0) = seeded_wards
  ∧ issues_collection (seeded_world "i1" 0) !! "i1" = Some (sample_issue 0)
  ∧ ∃ w',
      process_new_issue no_numeric_strings smtp_up "i1" (seeded_world "i1" 0)
        = (Ok true, w')
      ∧ field w' "i1" "ward_id" = Some (VStr "ward001")
      ∧ field w' "i1" "ward_assigned" = Some (VBool true)
      ∧ field w' "i1" "notification_sent" = Some (VBool true).
Proof.
  split; [reflexivity|]. split; [reflexivity|].
  destruct (central_ward_end_to_end no_numeric_strings smtp_up "i1" 0
              (seeded_world "i1" 0) eq_refl eq_refl)
    as (w' & msg & Hrun & Hid & _ & Hassigned & _ & _ & _ & _ & Hsent).
  exists w'. split_and!; [exact Hrun|exact Hid|exact Hassigned|exact Hsent].
Defined.

(** (12.9756, 77.5946) is the midpoint of the first edge of Central Ward,
    and (12.9716, 77.5946) is its first vertex. *)
Lemma boundary_point_not_contained_witness :
  3 ≤ length [(129716 # 10000, 775946 # 10000); (129796 # 10000, 775946 # 10000);
              (129796 # 10000, 776046 # 10000); (129716 # 10000, 776046 # 10000)]
  ∧ on_boundary (129756 # 10000, 775946 # 10000)
      [(129716 # 10000, 775946 # 10000); (129796 # 10000, 775946 # 10000);
       (129796 # 10000, 776046 # 10000); (129716 # 10000, 776046 # 10000)]
  ∧ central_ward !! "boundaries"
    = Some (VList (vertex_of <$>
        [(129716 # 10000, 775946 # 10000); (129796 # 10000, 775946 # 10000);
         (129796 # 10000, 776046 # 10000); (129716 # 10000, 776046 # 10000)]))
  ∧ point_in_polygon no_numeric_strings (129756 # 10000) (775946 # 10000)
      (VList (vertex_of <$>
        [(129716 # 10000, 775946 # 10000); (129796 # 10000, 775946 # 10000);
         (129796 # 10000, 776046 # 10000); (129716 # 10000, 776046 # 10000)]))
    = Ok false.
Proof.
  assert (3 ≤ length
            [(129716 # 10000, 775946 # 10000); (129796 # 10000, 775946 # 10000);
             (129796 # 10000, 776046 # 10000); (129716 # 10000, 776046 # 10000)])
    as Hlen by (simpl; lia).
  assert (on_boundary (129756 # 10000, 775946 # 10000)
            [(129716 # 10000, 775946 # 10000); (129796 # 10000, 775946 # 10000);
             (129796 # 10000, 776046 # 10000); (129716 # 10000, 776046 # 10000)])
    as Hon.
  { exists (129716 # 10000, 775946 # 10000), (129796 # 10000, 775946 # 10000).
    split; [left|].
    unfold lies_on_segment, Qeq, Qle. simpl. lia. }
  split_and!; [exact Hlen|exact Hon|reflexivity|].
  exact (boundary_point_not_contained no_numeric_strings _ _ _ Hlen Hon).
Defined.

(** The sample issue, processed twice with a working mail server. *)
Lemma reprocessing_witness :
  issues_collection (seeded_world "i1" 0) !! "i1" = Some (sample_issue 0)
  ∧ coordinates no_numeric_strings (<["id" := VStr "i1"]> (sample_issue 0))
    = Ok (129756 # 10000, 775996 # 10000)
  ∧ ∃ w1 w2 msg,
      process_new_issue no_numeric_strings smtp_up "i1" (seeded_world "i1" 0)
        = (Ok true, w1)
      ∧ field w1 "i1" "ward_assigned" = Some (VBool true)
      ∧ sends (trace w1) = [msg]
      ∧ process_new_issue no_numeric_strings smtp_up "i1" w1 = (Ok true, w2)
      ∧ sends (trace w2) = [msg; msg].
Proof.
  assert (issues_collection (seeded_world "i1" 0) !! "i1"
          = Some (sample_issue 0)) as Hd by reflexivity.
  assert (coordinates no_numeric_strings
            (<["id" := VStr "i1"]> (sample_issue 0))
          = Ok (129756 # 10000, 775996 # 10000)) as Hxy by reflexivity.
  split_and!; [exact Hd|exact Hxy|].
  destruct (reprocessing no_numeric_strings smtp_up "i1"
              (seeded_world "i1" 0) (sample_issue 0) _ _ Hd Hxy)
    as [_ Hagain].
  eassert (build_message (VStr "aryaniaf2608@gmail.com")
             (<["id" := VStr "i1"]> (sample_issue 0))
             (to_dict ("ward001", central_ward)) = Ok _) as Hmsg
    by reflexivity.
  destruct (Hagain (to_dict ("ward001", central_ward)) (VStr "ward001")
              (VStr "aryaniaf2608@gmail.com") _
              ltac:(vm_compute; reflexivity) eq_refl eq_refl Hmsg)
    as (w1 & w2 & email_sent & Hrun1 & Hassigned & _ & Hsends1 & Hrun2
        & Hsends2).
  eexists w1, w2, _.
  split_and!; [exact Hrun1|exact Hassigned|exact Hsends1|exact Hrun2
              |exact Hsends2].
Defined.

(** The two-vertex ward comes first in document order and stops the
    lookup, although Central Ward contains the point. *)
Lemma invalid_boundary_aborts_lookup_witness :
  stream (ward_collection (sliver_world "i1" 0))
    = [] ++ ("ward000", sliver_ward)
         :: [("ward001", central_ward); ("ward002", north_ward)]
  ∧ uncovered no_numeric_strings (129756 # 10000) (775996 # 10000) []
  ∧ sliver_ward !! "boundaries"
    = Some (VList (vertex_of <$> [(129716 # 10000, 775946 # 10000);
                                  (129796 # 10000, 775946 # 10000)]))
  ∧ 0 < length [(129716 # 10000, 775946 # 10000);
                (129796 # 10000, 775946 # 10000)] < 3
  ∧ find_ward_for_location no_numeric_strings
      (129756 # 10000) (775996 # 10000) (sliver_world "i1" 0)
    = (Raise ValueError, sliver_world "i1" 0)
  ∧ process_new_issue no_numeric_strings smtp_up "i1" (sliver_world "i1" 0)
    = (Ok false, sliver_world "i1" 0).
Proof.
  assert (stream (ward_collection (sliver_world "i1" 0))
          = [] ++ ("ward000", sliver_ward)
               :: [("ward001", central_ward); ("ward002", north_ward)])
    as Hstream by (vm_compute; reflexivity).
  assert (uncovered no_numeric_strings (129756 # 10000) (775996 # 10000) [])
    as Hpre by constructor.
  assert (("ward000", sliver_ward).2 !! "boundaries"
          = Some (VList (vertex_of <$> [(129716 # 10000, 775946 # 10000);
                                        (129796 # 10000, 775946 # 10000)])))
    as Hb by reflexivity.
  assert (0 < length [(129716 # 10000, 775946 # 10000);
                      (129796 # 10000, 775946 # 10000)] < 3)
    as Hlen by (simpl; lia).
  destruct (invalid_boundary_aborts_lookup no_numeric_strings smtp_up
              _ _ (sliver_world "i1" 0) _ _ _ _ Hstream Hpre Hb Hlen)
    as (_ & Hfind & Hprocess & _).
  refine (conj Hstream (conj Hpre (conj Hb (conj Hlen (conj Hfind _))))).
  apply (Hprocess "i1" (sample_issue 0)); reflexivity.
Defined.

(** ** Where the code departs from the stated contracts *)

(** C1, counterexample: the sample issue has been processed and notified
    once; processing it again opens a second SMTP session. *)
Lemma reprocessing_notifies_again :
  let w1 :=
    (process_new_issue no_numeric_strings smtp_up "i1"
       (seeded_world "i1" 0)).2 in
  fully_processed w1 "i1"
  ∧ length (sends (trace w1)) = 1
  ∧ length (sends (trace
      (process_new_issue no_numeric_strings smtp_up "i1" w1).2)) = 2
  ∧ ¬ sends_nothing_more no_numeric_strings smtp_up "i1" w1.
Proof.
  cbv zeta. split_and!.
  - split; vm_compute; reflexivity.
  - vm_compute. reflexivity.
  - vm_compute. reflexivity.
  - unfold sends_nothing_more. intros H.
    apply (f_equal length) in H. vm_compute in H. discriminate H.
Qed.

(** C2, counterexample: a boundary without vertices tests as [False]
    without any error, and a two-vertex ward ahead of Central Ward makes
    the lookup raise, whereas the lookup over the other wards finds
    Central Ward. *)
Lemma invalid_ward_not_skipped :
  point_in_polygon no_numeric_strings (129756 # 10000) (775996 # 10000)
    (VList []) = Ok false
  ∧ (find_ward_for_location no_numeric_strings
       (129756 # 10000) (775996 # 10000) (sliver_world "i1" 0)).1
    = Raise ValueError
  ∧ (find_ward_for_location no_numeric_strings
       (129756 # 10000) (775996 # 10000)
       (without_ward "ward000" (sliver_world "i1" 0))).1
    = Ok (Some (to_dict ("ward001", central_ward)))
  ∧ ¬ skips_ward no_numeric_strings (129756 # 10000) (775996 # 10000)
        (sliver_world "i1" 0) "ward000".
Proof.
  split_and!.
  - reflexivity.
  - vm_compute. reflexivity.
  - vm_compute. reflexivity.
  - unfold skips_ward. intros H. vm_compute in H. discriminate H.
Qed.


(** C8, counterexample: an issue document without a [category] field
    makes the dispatcher return [False] before any SMTP session is
    opened. *)
Lemma dispatcher_without_category :
  let issue_data := delete "category" (<["id" := VStr "i1"]> (sample_issue 0)) in
  send_email_notification smtp_up (VStr "aryaniaf2608@gmail.com")
    issue_data central_ward empty_world = (Ok false, empty_world)
  ∧ ¬ one_transport_call smtp_up (VStr "aryaniaf2608@gmail.com")
        issue_data central_ward empty_world.
Proof.
  cbv zeta. split.
  - vm_compute. reflexivity.
  - unfold one_transport_call. intros H. vm_compute in H. discriminate H.
Qed.

(** C4, counterexample: Central Ward is stored without a [ward_id].  It
    is resolved for the sample issue, yet the call returns [False] with
    nothing written: no assignment is on the issue afterwards. *)
Lemma resolved_ward_without_ward_id :
  ward_loop no_numeric_strings (129756 # 10000) (775996 # 10000)
    (stream (ward_collection (unlabelled_world "i1" 0)))
  = Ok (Some (to_dict ("ward001", delete "ward_id" central_ward)))
  ∧ process_new_issue no_numeric_strings smtp_up "i1"
      (unlabelled_world "i1" 0)
    = (Ok false, unlabelled_world "i1" 0)
  ∧ field (process_new_issue no_numeric_strings smtp_up "i1"
             (unlabelled_world "i1" 0)).2 "i1" "ward_assigned" = None
  ∧ ¬ assignment_persisted no_numeric_strings smtp_up "i1"
        (unlabelled_world "i1" 0).
Proof.
  split_and!.
  - vm_compute. reflexivity.
  - vm_compute. reflexivity.
  - vm_compute. reflexivity.
  - unfold assignment_persisted. intros H.
    assert (field (process_new_issue no_numeric_strings smtp_up "i1"
                     (unlabelled_world "i1" 0)).2 "i1" "ward_assigned"
            = None) as Hnone by (vm_compute; reflexivity).
    rewrite Hnone in H. discriminate H.
Qed.

(** C5, counterexample: the issue lies far from every ward, and a ward
    with a two-vertex boundary is stored after the two sample wards.  No
    ward polygon contains the point, yet the lookup raises, the call
    returns [False] and nothing is written on the issue. *)
Lemma malformed_ward_blocks_no_coverage :
  coordinates no_numeric_strings (<["id" := VStr "i1"]> (far_issue 0))
    = Ok (10, 10)%Q
  ∧ in_no_polygon no_numeric_strings 10 10
      (stream (ward_collection (far_sliver_world "i1" 0)))
  ∧ process_new_issue no_numeric_strings smtp_up "i1"
      (far_sliver_world "i1" 0)
    = (Ok false, far_sliver_world "i1" 0)
  ∧ field (process_new_issue no_numeric_strings smtp_up "i1"
             (far_sliver_world "i1" 0)).2 "i1" "ward_assigned" = None
  ∧ field (process_new_issue no_numeric_strings smtp_up "i1"
             (far_sliver_world "i1" 0)).2 "i1" "notification_sent" = None
  ∧ ¬ no_coverage_persisted no_numeric_strings smtp_up "i1"
        (far_sliver_world "i1" 0).
Proof.
  split_and!.
  - reflexivity.
  - unfold in_no_polygon.
    replace (stream (ward_collection (far_sliver_world "i1" 0)))
      with [("ward001", central_ward); ("ward002", north_ward);
            ("ward999", sliver_ward)]
      by (vm_compute; reflexivity).
    repeat (constructor; [intros H; vm_compute in H; discriminate H|]).
    constructor.
  - vm_compute. reflexivity.
  - vm_compute. reflexivity.
  - vm_compute. reflexivity.
  - unfold no_coverage_persisted. intros [H _].
    assert (field (process_new_issue no_numeric_strings smtp_up "i1"
                     (far_sliver_world "i1" 0)).2 "i1" "ward_assigned"
            = None) as Hnone by (vm_compute; reflexivity).
    rewrite Hnone in H. discriminate H.
Qed.

(** C6, counterexample: the first ward whose polygon contains the point
    is not always what the lookup returns.  Central Ward stored without
    a [name] contains the point and the lookup raises [KeyError]; and
    with a two-vertex ward ahead of it in document order, Central Ward
    is the first ward whose polygon contains the point and the lookup
    raises [ValueError]. *)
Lemma first_containing_ward_not_returned :
  covers no_numeric_strings (129756 # 10000) (775996 # 10000)
    (to_dict ("ward001", delete "name" central_ward)) = Ok true
  ∧ (find_ward_for_location no_numeric_strings
       (129756 # 10000) (775996 # 10000) (nameless_world "i1" 0)).1
    = Raise (KeyError "name")
  ∧ ¬ returns_first_containing no_numeric_strings
        (129756 # 10000) (775996 # 10000) (nameless_world "i1" 0)
  ∧ stream (ward_collection (sliver_world "i1" 0))
    = [("ward000", sliver_ward)]
      ++ ("ward001", central_ward) :: [("ward002", north_ward)]
  ∧ in_no_polygon no_numeric_strings (129756 # 10000) (775996 # 10000)
      [("ward000", sliver_ward)]
  ∧ covers no_numeric_strings (129756 # 10000) (775996 # 10000)
      (to_dict ("ward001", central_ward)) = Ok true
  ∧ (find_ward_for_location no_numeric_strings
       (129756 # 10000) (775996 # 10000) (sliver_world "i1" 0)).1
    = Raise ValueError
  ∧ ¬ returns_first_containing no_numeric_strings
        (129756 # 10000) (775996 # 10000) (sliver_world "i1" 0).
Proof.
  assert (stream (ward_collection (sliver_world "i1" 0))
          = [("ward000", sliver_ward)]
            ++ ("ward001", central_ward) :: [("ward002", north_ward)])
    as Hstream by (vm_compute; reflexivity).
  assert (in_no_polygon no_numeric_strings
            (129756 # 10000) (775996 # 10000) [("ward000", sliver_ward)])
    as Hpre.
  { constructor; [intros H; vm_compute in H; discriminate H|constructor]. }
  split_and!.
  - vm_compute. reflexivity.
  - vm_compute. reflexivity.
  - intros H.
    specialize (H [] ("ward001", delete "name" central_ward) []).
    assert (stream (ward_collection (nameless_world "i1" 0))
            = [] ++ [("ward001", delete "name" central_ward)]) as Hs
      by (vm_compute; reflexivity).
    specialize (H Hs).
    assert (in_no_polygon no_numeric_strings
              (129756 # 10000) (775996 # 10000) []) as Hnil
      by constructor.
    specialize (H Hnil).
    assert (covers no_numeric_strings (129756 # 10000) (775996 # 10000)
              (to_dict ("ward001", delete "name" central_ward)) = Ok true)
      as Hin by (vm_compute; reflexivity).
    specialize (H Hin).
    assert ((find_ward_for_location no_numeric_strings
               (129756 # 10000) (775996 # 10000) (nameless_world "i1" 0)).1
            = Raise (KeyError "name")) as Hraise by (vm_compute; reflexivity).
    rewrite Hraise in H. discriminate H.
  - exact Hstream.
  - exact Hpre.
  - vm_compute. reflexivity.
  - vm_compute. reflexivity.
  - intros H.
    specialize (H _ _ _ Hstream Hpre).
    assert (covers no_numeric_strings (129756 # 10000) (775996 # 10000)
              (to_dict ("ward001", central_ward)) = Ok true)
      as Hin by (vm_compute; reflexivity).
    specialize (H Hin).
    assert ((find_ward_for_location no_numeric_strings
               (129756 # 10000) (775996 # 10000) (sliver_world "i1" 0)).1
            = Raise ValueError) as Hraise by (vm_compute; reflexivity).
    rewrite Hraise in H. discriminate H.
Qed.

(** ** Instances of the further properties *)

Lemma rectangle_geofence_witness :
  (0 < 1)%Q
  ∧ point_in_polygon no_numeric_strings (1 # 2) (1 # 2)
      (VList (vertex_of <$> rectangle 0 0 1 1)) = Ok true
  ∧ point_in_polygon no_numeric_strings 1 (1 # 2)
      (VList (vertex_of <$> rectangle 0 0 1 1)) = Ok false.
Proof.
  assert (0 < 1)%Q as H by reflexivity.
  split; [exact H|]. split.
  - exact (rectangle_geofence no_numeric_strings (1 # 2) (1 # 2) 0 0 1 1 H H).
  - exact (rectangle_geofence no_numeric_strings 1 (1 # 2) 0 0 1 1 H H).
Defined.

Lemma sample_geofence_witness :
  ward_collection (seeded_world "i1" 0) = seeded_wards
  ∧ find_ward_for_location no_numeric_strings
      (130056 # 10000) (775996 # 10000) (seeded_world "i1" 0)
    = (Ok (Some (to_dict ("ward002", north_ward))), seeded_world "i1" 0)
  ∧ find_ward_for_location no_numeric_strings
      (129900 # 10000) (775996 # 10000) (seeded_world "i1" 0)
    = (Ok None, seeded_world "i1" 0).
Proof.
  split; [reflexivity|]. split.
  - exact (proj1 (sample_geofence no_numeric_strings
                    (130056 # 10000) (775996 # 10000)
                    (seeded_world "i1" 0) eq_refl)).
  - exact (proj1 (sample_geofence no_numeric_strings
                    (129900 # 10000) (775996 # 10000)
                    (seeded_world "i1" 0) eq_refl)).
Defined.

Lemma find_ward_sound_witness :
  find_ward_for_location no_numeric_strings
    (129756 # 10000) (775996 # 10000) (seeded_world "i1" 0)
  = (Ok (Some (to_dict ("ward001", central_ward))), seeded_world "i1" 0)
  ∧ ∃ pre k d post,
      stream (ward_collection (seeded_world "i1" 0)) = pre ++ (k, d) :: post
      ∧ ward_collection (seeded_world "i1" 0) !! k = Some d
      ∧ to_dict ("ward001", central_ward) = <["id" := VStr k]> d.
Proof.
  assert (find_ward_for_location no_numeric_strings
            (129756 # 10000) (775996 # 10000) (seeded_world "i1" 0)
          = (Ok (Some (to_dict ("ward001", central_ward))),
             seeded_world "i1" 0)) as Hrun by (vm_compute; reflexivity).
  split; [exact Hrun|].
  destruct (find_ward_sound no_numeric_strings _ _ _ _ _ Hrun)
    as (_ & pre & k & d & post & Hstream & Hk & Hward & _).
  exists pre, k, d, post. split_and!; [exact Hstream|exact Hk|exact Hward].
Defined.



Lemma process_keeps_other_fields_witness :
  ("category" ∉ written_keys)
  ∧ field (process_new_issue no_numeric_strings smtp_up "i1"
             (seeded_world "i1" 0)).2 "i1" "category"
    = Some (VStr "Road Damage").
Proof.
  assert ("category" ∉ written_keys) as Hk.
  { intros H. repeat (apply elem_of_cons in H as [H|H]; [discriminate H|]).
    by apply elem_of_nil in H. }
  split; [exact Hk|].
  rewrite (process_keeps_other_fields no_numeric_strings smtp_up "i1"
             (seeded_world "i1" 0) "category" Hk).
  reflexivity.
Defined.

Lemma recorded_status_is_sound_witness :
  process_new_issue no_numeric_strings smtp_up "i1" (seeded_world "i1" 0)
  = (Ok true,
     (process_new_issue no_numeric_strings smtp_up "i1"
        (seeded_world "i1" 0)).2)
  ∧ ∃ b t,
      field (process_new_issue no_numeric_strings smtp_up "i1"
               (seeded_world "i1" 0)).2 "i1" "notification_sent"
        = Some (VBool b)
      ∧ field (process_new_issue no_numeric_strings smtp_up "i1"
                 (seeded_world "i1" 0)).2 "i1" "notification_email_sent"
        = Some (VBool b)
      ∧ field (process_new_issue no_numeric_strings smtp_up "i1"
                 (seeded_world "i1" 0)).2 "i1" "notification_time"
        = Some (VTime t).
Proof.
  assert (process_new_issue no_numeric_strings smtp_up "i1"
            (seeded_world "i1" 0)
          = (Ok true,
             (process_new_issue no_numeric_strings smtp_up "i1"
                (seeded_world "i1" 0)).2)) as Hrun
    by (vm_compute; reflexivity).
  split; [exact Hrun|].
  destruct (recorded_status_is_sound no_numeric_strings smtp_up _ _ _ Hrun)
    as (b & t & Hs & He & Ht & _).
  exists b, t. split_and!; [exact Hs|exact He|exact Ht].
Defined.

Lemma unreadable_coordinates_witness :
  issues_collection (blind_world "i1" 0) !! "i1"
    = Some (delete "latitude" (sample_issue 0))
  ∧ delete "latitude" (sample_issue 0) !! "latitude" = None
  ∧ process_new_issue no_numeric_strings smtp_up "i1" (blind_world "i1" 0)
    = (Ok false, blind_world "i1" 0).
Proof.
  assert (issues_collection (blind_world "i1" 0) !! "i1"
          = Some (delete "latitude" (sample_issue 0))) as Hd by reflexivity.
  assert (delete "latitude" (sample_issue 0) !! "latitude" = None) as Hlat
    by reflexivity.
  split; [exact Hd|]. split; [exact Hlat|].
  apply (unreadable_coordinates no_numeric_strings smtp_up "i1"
           (blind_world "i1" 0) _ Hd).
  left. exact Hlat.
Defined.

Lemma ward_without_officer_witness :
  issues_collection (unstaffed_world "i1" 0) !! "i1" = Some (sample_issue 0)
  ∧ ward_loop no_numeric_strings (129756 # 10000) (775996 # 10000)
      (stream (ward_collection (unstaffed_world "i1" 0)))
    = Ok (Some (to_dict ("ward001", delete "officer_email" central_ward)))
  ∧ to_dict ("ward001", delete "officer_email" central_ward)
      !! "officer_email" = None
  ∧ ∃ ward_name w',
      process_new_issue no_numeric_strings smtp_up "i1"
        (unstaffed_world "i1" 0) = (Ok false, w')
      ∧ trace w'
        = [EvUpdate "i1" (assignment_fields (VStr "ward001") ward_name)]
      ∧ field w' "i1" "ward_assigned" = Some (VBool true)
      ∧ field w' "i1" "notification_sent" = None.
Proof.
  assert (issues_collection (unstaffed_world "i1" 0) !! "i1"
          = Some (sample_issue 0)) as Hd by reflexivity.
  assert (coordinates no_numeric_strings
            (<["id" := VStr "i1"]> (sample_issue 0))
          = Ok (129756 # 10000, 775996 # 10000)) as Hxy by reflexivity.
  assert (ward_loop no_numeric_strings (129756 # 10000) (775996 # 10000)
            (stream (ward_collection (unstaffed_world "i1" 0)))
          = Ok (Some (to_dict
                        ("ward001", delete "officer_email" central_ward))))
    as Hward by (vm_compute; reflexivity).
  assert (to_dict ("ward001", delete "officer_email" central_ward)
            !! "officer_email" = None) as Hofficer by reflexivity.
  split; [exact Hd|]. split; [exact Hward|]. split; [exact Hofficer|].
  destruct (ward_without_officer no_numeric_strings smtp_up "i1"
              (unstaffed_world "i1" 0) (sample_issue 0) _ _ _
              (VStr "ward001") Hd Hxy Hward eq_refl Hofficer)
    as (ward_name & w' & Hrun & Htrace & Hassigned & Hsent & _).
  exists ward_name, w'.
  split_and!; [exact Hrun|exact Htrace|exact Hassigned|exact Hsent].
Defined.

Lemma message_matches_record_witness :
  ∃ w' msg,
    process_new_issue no_numeric_strings smtp_up "i1" (seeded_world "i1" 0)
      = (Ok true, w')
    ∧ sends (trace w') = sends (trace (seeded_world "i1" 0)) ++ [msg]
    ∧ body_issue_id msg = VStr "i1"
    ∧ field w' "i1" "ward_id" = Some (body_ward_id msg)
    ∧ field w' "i1" "ward_name" = Some (body_ward msg).
Proof.
  eexists (process_new_issue no_numeric_strings smtp_up "i1"
             (seeded_world "i1" 0)).2, _.
  eassert (process_new_issue no_numeric_strings smtp_up "i1"
             (seeded_world "i1" 0) = (Ok true, _)) as Hrun
    by (vm_compute; reflexivity).
  eassert (sends (trace (process_new_issue no_numeric_strings smtp_up "i1"
                           (seeded_world "i1" 0)).2)
           = sends (trace (seeded_world "i1" 0)) ++ [_]) as Hsends
    by (vm_compute; reflexivity).
  destruct (message_matches_record no_numeric_strings smtp_up "i1"
              (seeded_world "i1" 0) _ _ Hrun Hsends)
    as (Hid & Hwid & Hwname & _).
  split_and!; [exact Hrun|exact Hsends|exact Hid|exact Hwid|exact Hwname].
Defined.

Lemma main_on_fresh_database_witness :
  ward_collection empty_world = ∅
  ∧ ∃ w',
      main no_numeric_strings smtp_up decimal_587 sample_environ "i1" 0
        empty_world = (Ok (), w')
      ∧ ward_collection w' = seeded_wards
      ∧ field w' "i1" "ward_id" = Some (VStr "ward001")
      ∧ length (sends (trace w')) = 1.
Proof.
  split; [reflexivity|].
  destruct (main_on_fresh_database no_numeric_strings smtp_up decimal_587
              sample_environ "i1" 0 empty_world eq_refl)
    as (_ & _ & Hrun).
  destruct (Hrun ltac:(by eexists) eq_refl)
    as (w' & msg & Hmain & Hwards & Hid & _ & _ & Hsends & _).
  exists w'. split_and!; [exact Hmain|exact Hwards|exact Hid|].
  rewrite Hsends. reflexivity.
Defined.

Lemma explicit_closing_vertex_witness :
  2 ≤ length [(129796 # 10000, 775946 # 10000);
              (129796 # 10000, 776046 # 10000);
              (129716 # 10000, 776046 # 10000)]
  ∧ point_in_polygon no_numeric_strings (129756 # 10000) (775996 # 10000)
      (VList (vertex_of <$>
         ((129716 # 10000, 775946 # 10000)
          :: [(129796 # 10000, 775946 # 10000);
              (129796 # 10000, 776046 # 10000);
              (129716 # 10000, 776046 # 10000)])
         ++ [(129716 # 10000, 775946 # 10000)]))
    = Ok true.
Proof.
  assert (2 ≤ length [(129796 # 10000, 775946 # 10000);
                      (129796 # 10000, 776046 # 10000);
                      (129716 # 10000, 776046 # 10000)])
    as Hlen by (simpl; lia).
  split; [exact Hlen|].
  rewrite (explicit_closing_vertex no_numeric_strings _ _ _ _ Hlen).
  vm_compute. reflexivity.
Defined.
